(** * Fallback LLM dispatch: model registry, event payload and fallback engine

    Shallow embedding of [src/available_models.py], [src/event_payload.py]
    and [src/llm_handler.py].

    Python strings are sequences of code points, modelled as [list Z].
    The [json] library functions that [EventPayload.to_json] and
    [EventPayload.from_json] call ([json.dumps] with [indent=2] and
    [json.loads]) are embedded on these code-point lists. *)

From Stdlib Require Import ZArith Lia Bool Floats Ascii String.
From Stdlib Require Import DecimalZ DecimalPos.
From stdpp Require Import base list gmap.

Open Scope Z_scope.
Set Warnings "-register-all -inexact-float".

(* ------------------------------------------------------------------ *)
(** ** Python strings *)

Abbreviation pystr := (list Z).

(** An ASCII Rocq string literal as a Python string. *)
Definition u (s : string) : pystr :=
  map (fun a => Z.of_nat (nat_of_ascii a)) (list_ascii_of_string s).

(* ------------------------------------------------------------------ *)
(** ** [available_models.py] *)

Definition AVAILABLE_MODELS : gmap pystr pystr :=
  list_to_map [
    (u "claude-3-5-sonnet", u "claude-3-5-sonnet-20241022");
    (u "claude-3-haiku", u "claude-3-haiku-20240307");
    (u "gpt-4o", u "gpt-4o");
    (u "gpt-4o-mini", u "gpt-4o-mini");
    (u "gpt-4-turbo", u "gpt-4-turbo");
    (u "claude-3-5-sonnet-bedrock",
       u "bedrock/us.anthropic.claude-3-5-sonnet-20241022-v2:0");
    (u "claude-3-haiku-bedrock",
       u "bedrock/anthropic.claude-3-haiku-20240307-v1:0");
    (u "cohere-command-r-plus", u "cohere/command-r-plus");
    (u "gemini-1-5-pro", u "gemini/gemini-1.5-pro")].

Definition MODEL_NAMES : gmap pystr pystr :=
  list_to_map [
    (u "claude-3-5-sonnet", u "Claude 3.5 Sonnet (Direct)");
    (u "claude-3-haiku", u "Claude 3 Haiku (Direct)");
    (u "gpt-4o", u "GPT-4o");
    (u "gpt-4o-mini", u "GPT-4o Mini");
    (u "gpt-4-turbo", u "GPT-4 Turbo");
    (u "claude-3-5-sonnet-bedrock", u "Claude 3.5 Sonnet (Bedrock)");
    (u "claude-3-haiku-bedrock", u "Claude 3 Haiku (Bedrock)");
    (u "cohere-command-r-plus", u "Cohere Command R+");
    (u "gemini-1-5-pro", u "Gemini 1.5 Pro")].

(** Exceptions that can leave the engine.  [ValueError_unknown k] is the
    [ValueError(f"Unknown model: {k}. Available: [...]")] raised by
    [get_model_id]. *)
Inductive exn :=
| ValueError_unknown (model_key : pystr).

(** [get_model_id]: raises when the key is not in [AVAILABLE_MODELS]. *)
Definition get_model_id (model_key : pystr) : exn + pystr :=
  match AVAILABLE_MODELS !! model_key with
  | Some model_id => inr model_id
  | None => inl (ValueError_unknown model_key)
  end.

(** [get_model_name]: [MODEL_NAMES.get(model_key, model_key)]. *)
Definition get_model_name (model_key : pystr) : pystr :=
  match MODEL_NAMES !! model_key with
  | Some name => name
  | None => model_key
  end.

(* ------------------------------------------------------------------ *)
(** ** [event_payload.py] *)

(** The dataclass, with each field at its annotated type. *)
Record EventPayload := mkEventPayload {
  prompt : pystr;
  models : list pystr;
  max_tokens : Z;
  temperature : float;
  request_id : option pystr
}.

(** [primary_model]: [self.models[0]]; [None] is the [IndexError] of an
    empty list. *)
Definition primary_model (p : EventPayload) : option pystr :=
  match models p with
  | m :: _ => Some m
  | [] => None
  end.

(** [fallback_models]: [self.models[1:] if len(self.models) > 1 else []]. *)
Definition fallback_models (p : EventPayload) : list pystr :=
  if Nat.ltb 1 (length (models p)) then drop 1 (models p) else [].

(** Python objects as produced by [to_dict] and by [json.loads]. A [dict]
    is its list of items in insertion order. *)
Inductive pyobj :=
| PNone
| PBool (b : bool)
| PInt (z : Z)
| PFloat (f : float)
| PStr (s : pystr)
| PList (l : list pyobj)
| PDict (items : list (pystr * pyobj)).

Definition to_dict (p : EventPayload) : pyobj :=
  PDict [
    (u "prompt", PStr (prompt p));
    (u "models", PList (map PStr (models p)));
    (u "max_tokens", PInt (max_tokens p));
    (u "temperature", PFloat (temperature p));
    (u "request_id",
       match request_id p with Some r => PStr r | None => PNone end)].

(** Failures of the deserialising path: [TypeError] from [cls( **data)]
    (missing or unexpected keyword, or [data] not a mapping),
    [JSONDecodeError] from [json.loads], [ValueError_int_digits] from
    [json.loads] reading an int of more than 4300 digits, and [Untyped] for a value that
    the dataclass would store although it is not of the field's
    annotated type (such payloads lie outside this typed model). *)
Inductive load_error :=
| TypeError
| JSONDecodeError
| ValueError_int_digits
| Untyped.

Fixpoint dict_get (k : pystr) (items : list (pystr * pyobj)) : option pyobj :=
  match items with
  | [] => None
  | (k', v) :: rest => if decide (k = k') then Some v else dict_get k rest
  end.

Definition payload_fields : list pystr :=
  [u "prompt"; u "models"; u "max_tokens"; u "temperature"; u "request_id"].

Definition as_str (v : pyobj) : option pystr :=
  match v with PStr s => Some s | _ => None end.

Definition as_str_list (v : pyobj) : option (list pystr) :=
  match v with PList l => mapM as_str l | _ => None end.

Definition as_int (v : pyobj) : option Z :=
  match v with PInt z => Some z | _ => None end.

Definition as_float (v : pyobj) : option float :=
  match v with PFloat f => Some f | _ => None end.

Definition as_opt_str (v : pyobj) : option (option pystr) :=
  match v with PNone => Some None | PStr s => Some (Some s) | _ => None end.

Definition typed {A} (o : option A) : load_error + A :=
  match o with Some a => inr a | None => inl Untyped end.

(** [from_dict]: [cls( **data)], with the dataclass defaults
    [max_tokens = 4000], [temperature = 0.7], [request_id = None]. *)
Definition from_dict (data : pyobj) : load_error + EventPayload :=
  match data with
  | PDict items =>
      if forallb (fun kv => bool_decide (kv.1 ∈ payload_fields)) items then
        match dict_get (u "prompt") items, dict_get (u "models") items with
        | Some vp, Some vm =>
            let vt := default (PInt 4000) (dict_get (u "max_tokens") items) in
            let vf := default (PFloat 0.7%float)
                        (dict_get (u "temperature") items) in
            let vr := default PNone (dict_get (u "request_id") items) in
            match typed (as_str vp), typed (as_str_list vm), typed (as_int vt),
                  typed (as_float vf), typed (as_opt_str vr) with
            | inr p, inr ms, inr mt, inr t, inr r => inr (mkEventPayload p ms mt t r)
            | _, _, _, _, _ => inl Untyped
            end
        | _, _ => inl TypeError
        end
      else inl TypeError
  | _ => inl TypeError
  end.

(* ------------------------------------------------------------------ *)
(** ** The [json] library: [json.dumps(obj, indent=2)] and [json.loads] *)

(** Code points used by the encoder and the scanner. *)
Definition QUOTE : Z := 34.
Definition BACKSLASH : Z := 92.

(** [Py_hexdigits]: lowercase hexadecimal digit of a nibble. *)
Definition hexdigit (n : Z) : Z := if n <? 10 then 48 + n else 87 + n.

(** ['{0:04x}'.format(n)] for [0 <= n < 0x10000]. *)
Definition hex4 (n : Z) : pystr :=
  [hexdigit (Z.land (Z.shiftr n 12) 15); hexdigit (Z.land (Z.shiftr n 8) 15);
   hexdigit (Z.land (Z.shiftr n 4) 15); hexdigit (Z.land n 15)].

(** The replacement of one code point in [py_encode_basestring_ascii]
    ([ESCAPE_ASCII] matches backslash, quote and everything outside
    [' '..'~']; [ESCAPE_DCT] holds the two-character escapes). *)
Definition escape_char (c : Z) : pystr :=
  if c =? BACKSLASH then [BACKSLASH; BACKSLASH]
  else if c =? QUOTE then [BACKSLASH; QUOTE]
  else if (32 <=? c) && (c <=? 126) then [c]
  else if c =? 8 then [BACKSLASH; 98]
  else if c =? 12 then [BACKSLASH; 102]
  else if c =? 10 then [BACKSLASH; 110]
  else if c =? 13 then [BACKSLASH; 114]
  else if c =? 9 then [BACKSLASH; 116]
  else if c <? 65536 then [BACKSLASH; 117] ++ hex4 c
  else
    let n := c - 65536 in
    let s1 := Z.lor 55296 (Z.land (Z.shiftr n 10) 1023) in
    let s2 := Z.lor 56320 (Z.land n 1023) in
    [BACKSLASH; 117] ++ hex4 s1 ++ [BACKSLASH; 117] ++ hex4 s2.

Definition encode_basestring_ascii (s : pystr) : pystr :=
  [QUOTE] ++ flat_map escape_char s ++ [QUOTE].

(** Decimal digits of a [Decimal.uint]. *)
Fixpoint uint_chars (d : Decimal.uint) : pystr :=
  match d with
  | Decimal.Nil => []
  | Decimal.D0 d => 48 :: uint_chars d
  | Decimal.D1 d => 49 :: uint_chars d
  | Decimal.D2 d => 50 :: uint_chars d
  | Decimal.D3 d => 51 :: uint_chars d
  | Decimal.D4 d => 52 :: uint_chars d
  | Decimal.D5 d => 53 :: uint_chars d
  | Decimal.D6 d => 54 :: uint_chars d
  | Decimal.D7 d => 55 :: uint_chars d
  | Decimal.D8 d => 56 :: uint_chars d
  | Decimal.D9 d => 57 :: uint_chars d
  end.

(** The decimal text that [int.__repr__] and [str.format] write for an
    int.  CPython refuses to write more than [int_max_str_digits] digits
    ([long_to_decimal_string] below); the text is used as is where the
    int cannot reach that size: a list length (at most [sys.maxsize], 19
    digits) and an HTTP status code (3 digits). *)
Definition int_repr (z : Z) : pystr :=
  match Z.to_int z with
  | Decimal.Pos d => uint_chars d
  | Decimal.Neg d => 45 :: uint_chars d
  end.

(** [sys.get_int_max_str_digits()], 4300 unless changed. *)
Definition int_max_str_digits : nat := 4300.

(** The number of decimal digits of [abs(z)]. *)
Definition int_str_digits (z : Z) : nat := length (int_repr (Z.abs z)).

(** Exceptions raised inside [json] on these objects: [DecodeError] is a
    [json.JSONDecodeError] (including the scanner's [StopIteration],
    which [raw_decode] turns into one), [IntMaxStrDigits] the
    [ValueError] of CPython's int/str conversions past
    [int_max_str_digits] digits. *)
Inductive json_exn :=
| DecodeError
| IntMaxStrDigits.

(** [long_to_decimal_string] ([int.__repr__], the [_intstr] of
    [json.dumps]): [ValueError] when the int has more than
    [int_max_str_digits] digits. *)
Definition long_to_decimal_string (z : Z) : json_exn + pystr :=
  if Nat.ltb int_max_str_digits (int_str_digits z) then inl IntMaxStrDigits
  else inr (int_repr z).

(** The first exception of a sequence of chunks, or all the chunks. *)
Fixpoint all_chunks (cs : list (json_exn + pystr)) : json_exn + list pystr :=
  match cs with
  | [] => inr []
  | inl e :: _ => inl e
  | inr c :: cs' =>
      match all_chunks cs' with
      | inl e => inl e
      | inr cs'' => inr (c :: cs'')
      end
  end.

Fixpoint join_with (sep : pystr) (xs : list pystr) : pystr :=
  match xs with
  | [] => []
  | [x] => x
  | x :: xs => x ++ sep ++ join_with sep xs
  end.

(** [newline_indent] at a nesting level, for [indent=2]. *)
Definition newline_indent (level : nat) : pystr :=
  10 :: repeat 32 (2 * level).

Section Json.

(** [float.__repr__] on finite floats, and [float()] applied to a JSON
    number token; both are CPython's float conversions, outside the
    repository. *)
Variable float_repr : float -> pystr.
Variable float_of_str : pystr -> float.

(** [floatstr] of [_make_iterencode] with [allow_nan=True]. *)
Definition floatstr (f : float) : pystr :=
  if PrimFloat.is_nan f then u "NaN"
  else if (f =? PrimFloat.infinity)%float then u "Infinity"
  else if (f =? PrimFloat.neg_infinity)%float then u "-Infinity"
  else float_repr f.

(** [_iterencode] of [_make_iterencode] with [indent=2],
    [item_separator=','] and [key_separator=': '], chunks concatenated
    by [''.join]: the join raises the first exception of the chunks. *)
Fixpoint iterencode (level : nat) (o : pyobj) : json_exn + pystr :=
  match o with
  | PNone => inr (u "null")
  | PBool true => inr (u "true")
  | PBool false => inr (u "false")
  | PInt z => long_to_decimal_string z
  | PFloat f => inr (floatstr f)
  | PStr s => inr (encode_basestring_ascii s)
  | PList l =>
      match l with
      | [] => inr (u "[]")
      | _ =>
          match all_chunks (map (iterencode (S level)) l) with
          | inl e => inl e
          | inr chunks =>
              inr ([91] ++ newline_indent (S level)
                     ++ join_with (44 :: newline_indent (S level)) chunks
                     ++ newline_indent level ++ [93])
          end
      end
  | PDict items =>
      match items with
      | [] => inr (u "{}")
      | _ =>
          match all_chunks
                  (map (fun '(k, v) =>
                          match iterencode (S level) v with
                          | inl e => inl e
                          | inr t => inr (encode_basestring_ascii k ++ u ": " ++ t)
                          end) items) with
          | inl e => inl e
          | inr chunks =>
              inr ([123] ++ newline_indent (S level)
                     ++ join_with (44 :: newline_indent (S level)) chunks
                     ++ newline_indent level ++ [125])
          end
      end
  end.

(** [json.dumps(o, indent=2)]. *)
Definition dumps (o : pyobj) : json_exn + pystr := iterencode 0 o.

(** Helpers of the proofs: the text that the chunks of [_iterencode]
    join to when none of them raises, and whether every int of an
    object can be written. *)
Fixpoint iterencode_text (level : nat) (o : pyobj) : pystr :=
  match o with
  | PNone => u "null"
  | PBool true => u "true"
  | PBool false => u "false"
  | PInt z => int_repr z
  | PFloat f => floatstr f
  | PStr s => encode_basestring_ascii s
  | PList l =>
      match l with
      | [] => u "[]"
      | _ =>
          [91] ++ newline_indent (S level)
            ++ join_with (44 :: newline_indent (S level))
                 (map (iterencode_text (S level)) l)
            ++ newline_indent level ++ [93]
      end
  | PDict items =>
      match items with
      | [] => u "{}"
      | _ =>
          [123] ++ newline_indent (S level)
            ++ join_with (44 :: newline_indent (S level))
                 (map (fun '(k, v) =>
                         encode_basestring_ascii k ++ u ": " ++ iterencode_text (S level) v)
                      items)
            ++ newline_indent level ++ [125]
      end
  end.

Fixpoint ints_fit (o : pyobj) : bool :=
  match o with
  | PInt z => Nat.leb (int_str_digits z) int_max_str_digits
  | PList l => forallb ints_fit l
  | PDict items => forallb (fun '(_, v) => ints_fit v) items
  | _ => true
  end.

(** [json.decoder]: [scanstring] and [scan_once] of the C accelerator
    [_json.c] (the default decoder). *)

Definition is_ws (c : Z) : bool := (c =? 32) || (c =? 9) || (c =? 10) || (c =? 13).

Fixpoint skip_ws (s : pystr) : pystr :=
  match s with
  | c :: s' => if is_ws c then skip_ws s' else s
  | [] => []
  end.

Definition hexval (c : Z) : option Z :=
  if (48 <=? c) && (c <=? 57) then Some (c - 48)
  else if (97 <=? c) && (c <=? 102) then Some (c - 87)
  else if (65 <=? c) && (c <=? 70) then Some (c - 55)
  else None.

(** Four hex digits, accumulated as [c <<= 4; c |= digit]. *)
Definition decode_hex4 (h1 h2 h3 h4 : Z) : option Z :=
  match hexval h1, hexval h2, hexval h3, hexval h4 with
  | Some a, Some b, Some c, Some d => Some (((a * 16 + b) * 16 + c) * 16 + d)
  | _, _, _, _ => None
  end.

Definition is_high_surrogate (c : Z) : bool := (55296 <=? c) && (c <=? 56319).
Definition is_low_surrogate (c : Z) : bool := (56320 <=? c) && (c <=? 57343).

(** [Py_UNICODE_JOIN_SURROGATES]. *)
Definition join_surrogates (hi lo : Z) : Z :=
  Z.lor (Z.shiftl (Z.land hi 1023) 10) (Z.land lo 1023) + 65536.

(** The non-[u] backslash escapes. *)
Definition simple_escape (e : Z) : option Z :=
  if e =? QUOTE then Some QUOTE
  else if e =? BACKSLASH then Some BACKSLASH
  else if e =? 47 then Some 47
  else if e =? 98 then Some 8
  else if e =? 102 then Some 12
  else if e =? 110 then Some 10
  else if e =? 114 then Some 13
  else if e =? 116 then Some 9
  else None.

Definition cons_res (c : Z) (r : option (pystr * pystr)) : option (pystr * pystr) :=
  match r with
  | Some (t, rest) => Some (c :: t, rest)
  | None => None
  end.

(** [scanstring_unicode] with [strict=True], started after the opening
    quote; returns the decoded string and the input after the closing
    quote.  [None] is a [JSONDecodeError].  The length tests of the C
    code ([end >= len] after [\uXXXX], [end + 6 < len] before reading
    a second escape for a surrogate pair) are the non-empty tails
    required by the patterns. *)
Fixpoint scanstring (s : pystr) : option (pystr * pystr) :=
  match s with
  | [] => None
  | c :: s1 =>
      if c =? QUOTE then Some ([], s1)
      else if c =? BACKSLASH then
        match s1 with
        | [] => None
        | e :: s2 =>
            if e =? 117 then
              match s2 with
              | h1 :: h2 :: h3 :: h4 :: s3 =>
                  match s3 with
                  | [] => None
                  | _ :: _ =>
                      match decode_hex4 h1 h2 h3 h4 with
                      | None => None
                      | Some c1 =>
                          if is_high_surrogate c1 then
                            match s3 with
                            | b :: v :: g1 :: g2 :: g3 :: g4 :: ((_ :: _) as s4) =>
                                if (b =? BACKSLASH) && (v =? 117) then
                                  match decode_hex4 g1 g2 g3 g4 with
                                  | None => None
                                  | Some c2 =>
                                      if is_low_surrogate c2
                                      then cons_res (join_surrogates c1 c2) (scanstring s4)
                                      else cons_res c1 (scanstring s3)
                                  end
                                else cons_res c1 (scanstring s3)
                            | _ => cons_res c1 (scanstring s3)
                            end
                          else cons_res c1 (scanstring s3)
                      end
                  end
              | _ => None
              end
            else
              match simple_escape e with
              | Some c' => cons_res c' (scanstring s2)
              | None => None
              end
        end
      else if c <=? 31 then None
      else cons_res c (scanstring s1)
  end.

Definition is_digit (c : Z) : bool := (48 <=? c) && (c <=? 57).

Fixpoint span_digits (s : pystr) : pystr * pystr :=
  match s with
  | c :: s' => if is_digit c then let '(ds, r) := span_digits s' in (c :: ds, r) else ([], s)
  | [] => ([], [])
  end.

(** Integer digits: a single ['0'], or ['1'..'9'] followed by digits. *)
Definition match_int_digits (s : pystr) : option (pystr * pystr) :=
  match s with
  | c :: s' =>
      if (49 <=? c) && (c <=? 57) then let '(ds, r) := span_digits s' in Some (c :: ds, r)
      else if c =? 48 then Some ([c], s')
      else None
  | [] => None
  end.

(** ['.'] followed by at least one digit. *)
Definition match_frac (s : pystr) : option (pystr * pystr) :=
  match s with
  | c :: d :: s' =>
      if (c =? 46) && is_digit d then let '(ds, r) := span_digits s' in Some (c :: d :: ds, r)
      else None
  | _ => None
  end.

(** ['e'] or ['E'], an optional sign, at least one digit; otherwise the
    scanner backtracks to the ['e']. *)
Definition match_exp (s : pystr) : option (pystr * pystr) :=
  match s with
  | e :: s1 =>
      if (e =? 101) || (e =? 69) then
        let '(sg, s2) :=
          match s1 with
          | c :: (_ :: _) as s' => if (c =? 45) || (c =? 43) then ([c], s') else ([], s1)
          | _ => ([], s1)
          end in
        match span_digits s2 with
        | ([], _) => None
        | (ds, r) => Some (e :: sg ++ ds, r)
        end
      else None
  | [] => None
  end.

Definition uint_of_chars : pystr -> Decimal.uint :=
  fold_right (fun c d =>
    if c =? 49 then Decimal.D1 d else if c =? 50 then Decimal.D2 d
    else if c =? 51 then Decimal.D3 d else if c =? 52 then Decimal.D4 d
    else if c =? 53 then Decimal.D5 d else if c =? 54 then Decimal.D6 d
    else if c =? 55 then Decimal.D7 d else if c =? 56 then Decimal.D8 d
    else if c =? 57 then Decimal.D9 d else Decimal.D0 d) Decimal.Nil.

(** [_match_number_unicode]: an [int] when there is neither fraction nor
    exponent ([PyLong_FromString], which raises [ValueError] past
    [int_max_str_digits] digits), otherwise [float(numstr)]; no number
    is the [StopIteration] of the scanner. *)
Definition match_number (s : pystr) : json_exn + (pyobj * pystr) :=
  let '(neg, s1) :=
    match s with
    | c :: s' => if c =? 45 then (true, s') else (false, s)
    | [] => (false, [])
    end in
  match match_int_digits s1 with
  | None => inl DecodeError
  | Some (ip, s2) =>
      let '(fr, s3) := match match_frac s2 with Some p => p | None => ([], s2) end in
      let '(ex, s4) := match match_exp s3 with Some p => p | None => ([], s3) end in
      match fr, ex with
      | [], [] =>
          if Nat.ltb int_max_str_digits (length ip) then inl IntMaxStrDigits
          else
            let d := uint_of_chars ip in
            inr (PInt (Z.of_int (if neg then Decimal.Neg d else Decimal.Pos d)), s4)
      | _, _ =>
          inr (PFloat (float_of_str ((if neg then [45] else []) ++ ip ++ fr ++ ex)), s4)
      end
  end.

(** [PyDict_SetItem] on the item list: replace in place or append. *)
Fixpoint dict_setitem (k : pystr) (v : pyobj) (items : list (pystr * pyobj))
  : list (pystr * pyobj) :=
  match items with
  | [] => [(k, v)]
  | (k', v') :: rest =>
      if decide (k = k') then (k, v) :: rest else (k', v') :: dict_setitem k v rest
  end.

Definition starts_with (pre s : pystr) : bool :=
  bool_decide (take (length pre) s = pre).

(** [scan_once_unicode], [_parse_object_unicode] and
    [_parse_array_unicode].  The fuel bounds the number of nested calls;
    [loads] gives one more than the input length, and each call consumes
    at least one character. *)
Fixpoint scan_once (fuel : nat) (s : pystr) : json_exn + (pyobj * pystr) :=
  match fuel with
  | O => inl DecodeError
  | S fuel =>
      match s with
      | [] => inl DecodeError
      | c :: s1 =>
          if c =? QUOTE then
            match scanstring s1 with
            | Some (t, r) => inr (PStr t, r)
            | None => inl DecodeError
            end
          else if c =? 123 then
            match skip_ws s1 with
            | c' :: r => if c' =? 125 then inr (PDict [], r)
                         else parse_object_items fuel (c' :: r) []
            | [] => parse_object_items fuel [] []
            end
          else if c =? 91 then
            match skip_ws s1 with
            | c' :: r => if c' =? 93 then inr (PList [], r)
                         else parse_array_items fuel (c' :: r) []
            | [] => parse_array_items fuel [] []
            end
          else if starts_with (u "null") s then inr (PNone, drop 4 s)
          else if starts_with (u "true") s then inr (PBool true, drop 4 s)
          else if starts_with (u "false") s then inr (PBool false, drop 5 s)
          else if starts_with (u "NaN") s then inr (PFloat PrimFloat.nan, drop 3 s)
          else if starts_with (u "Infinity") s then inr (PFloat PrimFloat.infinity, drop 8 s)
          else if starts_with (u "-Infinity") s
          then inr (PFloat PrimFloat.neg_infinity, drop 9 s)
          else match_number s
      end
  end
with parse_object_items (fuel : nat) (s : pystr) (acc : list (pystr * pyobj))
  : json_exn + (pyobj * pystr) :=
  match fuel with
  | O => inl DecodeError
  | S fuel =>
      match s with
      | c :: s1 =>
          if c =? QUOTE then
            match scanstring s1 with
            | None => inl DecodeError
            | Some (k, r1) =>
                match skip_ws r1 with
                | c2 :: r2 =>
                    if c2 =? 58 then
                      match scan_once fuel (skip_ws r2) with
                      | inl e => inl e
                      | inr (v, r3) =>
                          let acc' := dict_setitem k v acc in
                          match skip_ws r3 with
                          | c3 :: r4 =>
                              if c3 =? 125 then inr (PDict acc', r4)
                              else if c3 =? 44 then parse_object_items fuel (skip_ws r4) acc'
                              else inl DecodeError
                          | [] => inl DecodeError
                          end
                      end
                    else inl DecodeError
                | [] => inl DecodeError
                end
            end
          else inl DecodeError
      | [] => inl DecodeError
      end
  end
with parse_array_items (fuel : nat) (s : pystr) (acc : list pyobj)
  : json_exn + (pyobj * pystr) :=
  match fuel with
  | O => inl DecodeError
  | S fuel =>
      match scan_once fuel s with
      | inl e => inl e
      | inr (v, r1) =>
          let acc' := acc ++ [v] in
          match skip_ws r1 with
          | c :: r2 =>
              if c =? 93 then inr (PList acc', r2)
              else if c =? 44 then parse_array_items fuel (skip_ws r2) acc'
              else inl DecodeError
          | [] => inl DecodeError
          end
      end
  end.

(** [json.loads] on a [str]: a leading BOM is refused, whitespace is
    skipped on both sides, and anything else left over is "Extra data". *)
Definition loads (s : pystr) : json_exn + pyobj :=
  match s with
  | 65279 :: _ => inl DecodeError
  | _ =>
      match scan_once (S (length s)) (skip_ws s) with
      | inr (v, r) => match skip_ws r with [] => inr v | _ => inl DecodeError end
      | inl e => inl e
      end
  end.

End Json.

(** [EventPayload.to_json]: [json.dumps(self.to_dict(), indent=2)]. *)
Definition to_json (float_repr : float -> pystr) (p : EventPayload) : json_exn + pystr :=
  dumps float_repr (to_dict p).

(** [EventPayload.from_json]: [cls.from_dict(json.loads(json_str))]. *)
Definition from_json (float_of_str : pystr -> float) (json_str : pystr)
  : load_error + EventPayload :=
  match loads float_of_str json_str with
  | inr data => from_dict data
  | inl DecodeError => inl JSONDecodeError
  | inl IntMaxStrDigits => inl ValueError_int_digits
  end.

(* ------------------------------------------------------------------ *)
(** ** [llm_handler.py] *)

(** One invocation of [litellm.completion] (the provider adapter). *)
Record call := mkCall {
  completion_model : pystr;
  completion_prompt : pystr;
  completion_max_tokens : Z;
  completion_temperature : float
}.

(** What the [try] block of [_call_model] ends with: the extracted
    [content], [usage] and best-effort [cost] ([None] when
    [completion_cost] raises), or [str(e)] of the exception raised by the
    call or by the extraction.  The content is [message.content], which
    litellm types [Optional[str]]: [None] for a reply without text. *)
Inductive completion_result :=
| Completed (content : option pystr) (usage : list (pystr * Z)) (cost : option float)
| Raised (msg : pystr).

(** The dictionary returned by [_call_model]. *)
Inductive call_result :=
| CallSuccess (content : option pystr) (model_used : pystr) (usage : list (pystr * Z))
    (cost : option float)
| CallFailure (error : pystr).

(** An element of the [attempts] list: the keys ['model'], ['name'],
    ['status'], ['error']. *)
Record attempt := mkAttempt {
  att_model : pystr;
  att_name : pystr;
  att_status : pystr;
  att_error : pystr
}.

Record SimpleResponse := mkSimpleResponse {
  success : bool;
  content : option pystr;
  model_used : option pystr;
  cost : option float;
  usage : option (list (pystr * Z));
  error : option pystr;
  attempts : option (list attempt)
}.

(** The effects of the engine: the exceptions it can raise and the
    sequence of adapter calls made so far. *)
Definition M (A : Type) : Type := list call -> (exn + A) * list call.

Definition ret {A} (a : A) : M A := fun h => (inr a, h).

Definition bind {A B} (m : M A) (f : A -> M B) : M B :=
  fun h => match m h with
           | (inl e, h') => (inl e, h')
           | (inr a, h') => f a h'
           end.

Definition lift {A} (r : exn + A) : M A := fun h => (r, h).

Notation "'let*' x ':=' m 'in' k" := (bind m (fun x => k))
  (at level 200, x name, m at level 100, right associativity).

Section Engine.

(** The provider adapter: its verdict may depend on every call made
    before (rate limits, outages). *)
Variable completion : list call -> call -> completion_result.

Definition completion_call (c : call) : M completion_result :=
  fun h => (inr (completion h c), h ++ [c]).

Definition _call_model (model_key prompt : pystr) (max_tokens : Z) (temperature : float)
  : M call_result :=
  let* model_id := lift (get_model_id model_key) in
  let model_name := get_model_name model_key in
  let* r := completion_call (mkCall model_id prompt max_tokens temperature) in
  ret (match r with
       | Completed content usage cost => CallSuccess content model_id usage cost
       | Raised e => CallFailure (model_name ++ u " failed: " ++ e)
       end).

Definition result_success (r : call_result) : bool :=
  match r with CallSuccess _ _ _ _ => true | CallFailure _ => false end.

(** [result.get('error', '')]. *)
Definition result_error (r : call_result) : pystr :=
  match r with CallSuccess _ _ _ _ => [] | CallFailure e => e end.

(** The loop of [process] from the current position on; [ms] is the
    rest of [payload.models] and [attempts] the records appended so far
    ([enumerate]'s index only chooses the log line). *)
Fixpoint process_loop (payload : EventPayload) (ms : list pystr) (attempts : list attempt)
  : M SimpleResponse :=
  match ms with
  | [] =>
      ret (mkSimpleResponse false None None None None
             (Some (u "All " ++ int_repr (Z.of_nat (length (models payload)))
                      ++ u " models failed"))
             (Some attempts))
  | model_key :: rest =>
      let model_name := get_model_name model_key in
      let* result := _call_model model_key (prompt payload) (max_tokens payload)
                       (temperature payload) in
      let attempts :=
        attempts ++ [mkAttempt model_key model_name
                       (if result_success result then u "success" else u "failed")
                       (result_error result)] in
      match result with
      | CallSuccess content _ usage cost =>
          ret (mkSimpleResponse true content (Some model_key) cost (Some usage)
                 None (Some attempts))
      | CallFailure _ => process_loop payload rest attempts
      end
  end.

Definition process (payload : EventPayload) : M SimpleResponse :=
  process_loop payload (models payload) [].

(** The adapter call [process] makes for a key, when the key is known. *)
Definition call_for (payload : EventPayload) (model_key : pystr) : option call :=
  match AVAILABLE_MODELS !! model_key with
  | Some model_id =>
      Some (mkCall model_id (prompt payload) (max_tokens payload) (temperature payload))
  | None => None
  end.

Definition calls_for (payload : EventPayload) (ms : list pystr) : option (list call) :=
  mapM (call_for payload) ms.

(** The adapter's verdicts on a sequence of calls made after [h]. *)
Fixpoint replies (h : list call) (cs : list call) : list completion_result :=
  match cs with
  | [] => []
  | c :: cs' => completion h c :: replies (h ++ [c]) cs'
  end.

Definition is_raised (r : completion_result) : bool :=
  match r with Raised _ => true | Completed _ _ _ => false end.

End Engine.

(* ------------------------------------------------------------------ *)
(** ** The rest of [available_models.py] *)

(** [AVAILABLE_MODELS.items()], in insertion order. *)
Definition AVAILABLE_MODELS_items : list (pystr * pystr) := [
    (u "claude-3-5-sonnet", u "claude-3-5-sonnet-20241022");
    (u "claude-3-haiku", u "claude-3-haiku-20240307");
    (u "gpt-4o", u "gpt-4o");
    (u "gpt-4o-mini", u "gpt-4o-mini");
    (u "gpt-4-turbo", u "gpt-4-turbo");
    (u "claude-3-5-sonnet-bedrock",
       u "bedrock/us.anthropic.claude-3-5-sonnet-20241022-v2:0");
    (u "claude-3-haiku-bedrock",
       u "bedrock/anthropic.claude-3-haiku-20240307-v1:0");
    (u "cohere-command-r-plus", u "cohere/command-r-plus");
    (u "gemini-1-5-pro", u "gemini/gemini-1.5-pro")].

(** [list_available_models]: the lines it prints. *)
Definition list_available_models : list pystr :=
  u "Available Models:"
    :: map (fun '(key, model_id) => let name := get_model_name key in
                                    u "  " ++ key ++ u ": " ++ name)
           AVAILABLE_MODELS_items.

(* ------------------------------------------------------------------ *)
(** ** The rest of [event_payload.py] *)

(** [EXAMPLE_PAYLOADS], in insertion order; every example keeps the
    dataclass defaults for [max_tokens], [temperature], [request_id]. *)
Definition EXAMPLE_PAYLOADS : list (pystr * EventPayload) := [
    (u "1p_to_3p",
       mkEventPayload (u "What is cloud computing")
         [u "claude-3-haiku-bedrock"; u "claude-3-5-sonnet"] 4000 0.7%float None);
    (u "quality_first",
       mkEventPayload (u "Your prompt here")
         [u "claude-3-5-sonnet"; u "gpt-4o"; u "claude-3-5-sonnet-bedrock"; u "gpt-4o-mini"]
         4000 0.7%float None);
    (u "speed_first",
       mkEventPayload (u "Your prompt here")
         [u "claude-3-haiku"; u "gpt-4o-mini"; u "claude-3-haiku-bedrock"; u "claude-3-5-sonnet"]
         4000 0.7%float None);
    (u "cost_first",
       mkEventPayload (u "Your prompt here")
         [u "gpt-4o-mini"; u "claude-3-haiku"; u "claude-3-haiku-bedrock"; u "gpt-4o"]
         4000 0.7%float None);
    (u "anthropic_only",
       mkEventPayload (u "Your prompt here")
         [u "claude-3-5-sonnet"; u "claude-3-haiku"; u "claude-3-5-sonnet-bedrock";
          u "claude-3-haiku-bedrock"]
         4000 0.7%float None);
    (u "openai_only",
       mkEventPayload (u "Your prompt here")
         [u "gpt-4o"; u "gpt-4o-mini"; u "gpt-4-turbo"] 4000 0.7%float None)].

(** [d[key]] for [key in d], on a dict given by its items. *)
Fixpoint lookup_item {A} (key : pystr) (items : list (pystr * A)) : option A :=
  match items with
  | [] => None
  | (k, v) :: rest => if decide (key = k) then Some v else lookup_item key rest
  end.

(** The [ValueError(f"Unknown strategy: {strategy}. Available: [...]")]
    of [get_example_payload]. *)
Inductive strategy_error :=
| ValueError_strategy (strategy : pystr).

(** [get_example_payload]: the example's [models] (the same list
    object), [max_tokens] and [temperature], the given prompt, and the
    default [request_id]. *)
Definition get_example_payload (strategy prompt : pystr) : strategy_error + EventPayload :=
  match lookup_item strategy EXAMPLE_PAYLOADS with
  | None => inl (ValueError_strategy strategy)
  | Some example =>
      inr (mkEventPayload prompt (models example) (max_tokens example)
             (temperature example) None)
  end.

(** [create_payload(prompt, models, **kwargs)]:
    [EventPayload(prompt=prompt, models=models, **kwargs)]; a [kwargs]
    that names [prompt] or [models] again is the [TypeError] "got
    multiple values for keyword argument", the rest is [cls( **data)]
    as in [from_dict].  [kwargs] is the dict of extra keywords. *)
Definition create_payload (prompt : pystr) (models : list pystr)
    (kwargs : list (pystr * pyobj)) : load_error + EventPayload :=
  if existsb (fun kv => bool_decide (kv.1 = u "prompt" \/ kv.1 = u "models")) kwargs
  then inl TypeError
  else from_dict (PDict ((u "prompt", PStr prompt) :: (u "models", PList (map PStr models))
                         :: kwargs)).

(* ------------------------------------------------------------------ *)
(** ** The rest of [llm_handler.py] *)

(** The names in the [api_keys] dict of [_setup_api_keys]. *)
Definition API_KEY_VARS : list pystr :=
  [u "OPENAI_API_KEY"; u "ANTHROPIC_API_KEY"; u "COHERE_API_KEY"; u "GOOGLE_API_KEY";
   u "AWS_ACCESS_KEY_ID"; u "AWS_SECRET_ACCESS_KEY"; u "AWS_SESSION_TOKEN"].

(** [_setup_api_keys] on [os.environ]: [api_keys] maps each name to
    [os.getenv(name)], then every truthy value is written back with
    [os.environ[key] = value]. *)
Definition _setup_api_keys (environ : gmap pystr pystr) : gmap pystr pystr :=
  let api_keys := map (fun key => (key, environ !! key)) API_KEY_VARS in
  fold_left (fun env '(key, value) =>
               match value with
               | Some v => if bool_decide (v = []) then env else <[key := v]> env
               | None => env
               end) api_keys environ.

(** The prompt of [main]'s example runs. *)
Definition main_prompt : pystr := u "Explain quantum computing in simple terms.".

(** What [main] does for its arguments; the printing of each branch is
    left out, except the lines of the ["models"] listing. *)
Inductive main_outcome :=
| ListedModels (lines : list pystr)
| ListedStrategies (items : list (pystr * list pystr))
| UnknownOption (arg : pystr)
| Processed (strategy : option pystr) (payload : EventPayload) (response : SimpleResponse).

(** The exceptions that could leave [main]. *)
Inductive main_exn :=
| MainStrategyError (e : strategy_error)
| MainEngineError (e : exn).

Section MainProgram.

Variable completion : list call -> call -> completion_result.

(** [response = handler.process(payload)] after [get_example_payload]. *)
Definition run_payload (strategy : option pystr) (r : strategy_error + EventPayload)
    (h : list call) : (main_exn + main_outcome) * list call :=
  match r with
  | inl e => (inl (MainStrategyError e), h)
  | inr payload =>
      match process completion payload h with
      | (inl e, h') => (inl (MainEngineError e), h')
      | (inr response, h') => (inr (Processed strategy payload response), h')
      end
  end.

(** [main] on [sys.argv]; [SimpleLLMHandler()] only runs
    [_setup_api_keys], which leaves the environment as it is. *)
Definition main (argv : list pystr) (h : list call) : (main_exn + main_outcome) * list call :=
  match argv with
  | _ :: arg :: _ =>
      if decide (arg = u "models") then
        (inr (ListedModels
                (map (fun '(key, model_id) => let name := get_model_name key in
                                              u "  " ++ key ++ u ": " ++ name)
                     AVAILABLE_MODELS_items)), h)
      else if decide (arg = u "strategies") then
        (inr (ListedStrategies
                (map (fun '(strategy, example) => (strategy, models example))
                     EXAMPLE_PAYLOADS)), h)
      else
        match lookup_item arg EXAMPLE_PAYLOADS with
        | Some _ => run_payload (Some arg) (get_example_payload arg main_prompt) h
        | None => (inr (UnknownOption arg), h)
        end
  | _ => run_payload None (get_example_payload (u "quality_first") main_prompt) h
  end.

End MainProgram.

(* ------------------------------------------------------------------ *)
(** ** [bedrock-fallback.py] *)

Record ClaudeResponse := mkClaudeResponse {
  claude_content : pystr;
  claude_model_used : pystr;
  claude_source : pystr;
  claude_usage : option pyobj
}.

(** The two requests the client sends: [self.session.post(url,
    headers=..., json=payload)] with the [x-api-key] header, and
    [self.bedrock_client.invoke_model(modelId=..., body=json.dumps(body))]
    (the body is kept as the object given to [json.dumps]). *)
Inductive service_request :=
| AnthropicPost (url : pystr) (api_key : option pystr) (payload : pyobj)
| BedrockInvoke (model_id : pystr) (body : pyobj).

(** The result of [data = response.json()], [data['content'][0]['text']]
    and [data.get('usage', {})]: the content and usage, or the message
    of the exception raised, and whether it is a [RequestException]
    (as [requests]' [JSONDecodeError] is). *)
Inductive body_result :=
| BodyOk (content : pystr) (usage : pyobj)
| BodyRaised (request_exception : bool) (msg : pystr).

(** What [self.session.post] gives: a response, or the message of a
    [requests.exceptions.RequestException]. *)
Inductive http_result :=
| HttpResponse (status_code : Z) (text : pystr) (body : body_result)
| RequestRaised (msg : pystr).

(** What [invoke_model] and reading its response give: the content and
    usage, or [str(e)] of any exception raised on the way. *)
Inductive bedrock_result :=
| BedrockOk (content : pystr) (usage : pyobj)
| BedrockRaised (msg : pystr).

Definition anthropic_url : pystr := u "https://api.anthropic.com/v1/messages".
Definition ANTHROPIC_MODEL : pystr := u "claude-3-5-sonnet-20241022".
Definition BEDROCK_MODEL_ID : pystr := u "us.anthropic.claude-3-5-sonnet-20241022-v2:0".

Definition user_messages (prompt : pystr) : pyobj :=
  PList [PDict [(u "role", PStr (u "user")); (u "content", PStr prompt)]].

Definition anthropic_payload (prompt : pystr) (max_tokens : Z) : pyobj :=
  PDict [(u "model", PStr ANTHROPIC_MODEL); (u "max_tokens", PInt max_tokens);
         (u "messages", user_messages prompt)].

Definition bedrock_body (prompt : pystr) (max_tokens : Z) : pyobj :=
  PDict [(u "anthropic_version", PStr (u "bedrock-2023-05-31"));
         (u "max_tokens", PInt max_tokens); (u "messages", user_messages prompt)].

Section FallbackClient.

(** [self.anthropic_api_key], and the two services; each answer may
    depend on the requests sent before. *)
Variable anthropic_api_key : option pystr.
Variable post : list service_request -> service_request -> http_result.
Variable invoke_model : list service_request -> service_request -> bedrock_result.

(** A method's outcome: [str(e)] of the exception it raises, or its
    result, with the requests sent so far. *)
Definition client_result (A : Type) : Type := (pystr + A) * list service_request.

Definition call_anthropic_direct (prompt : pystr) (max_tokens : Z) (h : list service_request)
  : client_result ClaudeResponse :=
  let req := AnthropicPost anthropic_url anthropic_api_key (anthropic_payload prompt max_tokens) in
  let r :=
    match post h req with
    | RequestRaised e => inl (u "Request failed: " ++ e)
    | HttpResponse status_code text body =>
        if status_code =? 200 then
          match body with
          | BodyOk content usage =>
              inr (mkClaudeResponse content ANTHROPIC_MODEL (u "anthropic") (Some usage))
          | BodyRaised true e => inl (u "Request failed: " ++ e)
          | BodyRaised false e => inl e
          end
        else if status_code =? 429 then inl (u "Throttled: " ++ text)
        else inl (u "API Error " ++ int_repr status_code ++ u ": " ++ text)
    end in
  (r, h ++ [req]).

Definition call_bedrock_fallback (prompt : pystr) (max_tokens : Z) (h : list service_request)
  : client_result ClaudeResponse :=
  let req := BedrockInvoke BEDROCK_MODEL_ID (bedrock_body prompt max_tokens) in
  let r :=
    match invoke_model h req with
    | BedrockOk content usage =>
        inr (mkClaudeResponse content BEDROCK_MODEL_ID (u "bedrock") (Some usage))
    | BedrockRaised e => inl (u "Bedrock fallback failed: " ++ e)
    end in
  (r, h ++ [req]).

(** [generate_response]; the throttling test on the first error only
    chooses a log line. *)
Definition generate_response (prompt : pystr) (max_tokens : Z) (h : list service_request)
  : client_result ClaudeResponse :=
  match call_anthropic_direct prompt max_tokens h with
  | (inr r, h1) => (inr r, h1)
  | (inl anthropic_error, h1) =>
      match call_bedrock_fallback prompt max_tokens h1 with
      | (inr r, h2) => (inr r, h2)
      | (inl bedrock_error, h2) =>
          (inl (u "Both services failed. Anthropic: " ++ anthropic_error
                  ++ u ". Bedrock: " ++ bedrock_error), h2)
      end
  end.

End FallbackClient.

(* ------------------------------------------------------------------ *)
(** ** Requests that survive the JSON round trip *)

(** A Python code point lies in [0..0x10FFFF]. *)
Definition in_range (c : Z) : bool := (0 <=? c) && (c <=? 1114111).

(** No lone high surrogate is immediately followed by a lone low
    surrogate: [json.loads] would join such a pair of [\uXXXX] escapes
    into one astral code point. *)
Fixpoint no_surrogate_pair (s : pystr) : bool :=
  match s with
  | x :: ((y :: _) as s') =>
      negb (is_high_surrogate x && is_low_surrogate y) && no_surrogate_pair s'
  | _ => true
  end.

Definition valid_str (s : pystr) : bool := forallb in_range s && no_surrogate_pair s.

(** Neither NaN nor an infinity (every temperature in [[0, 2]] is finite). *)
Definition finite_float (f : float) : bool :=
  negb (PrimFloat.is_nan f) && negb (f =? PrimFloat.infinity)%float
  && negb (f =? PrimFloat.neg_infinity)%float.

Definition digit_run (ds : pystr) : Prop :=
  ds <> [] /\ Forall (fun c => is_digit c = true) ds.

(** The shape of [float.__repr__] on a finite float: an optional minus,
    integer digits without a leading zero, and a fraction or an exponent
    ([0.7], [1e-05], [1.5e+16]). *)
Definition float_literal (s : pystr) : Prop :=
  exists sg ip fr ex,
    s = sg ++ ip ++ fr ++ ex
    /\ (sg = [] \/ sg = [45])
    /\ (ip = [48] \/ exists c ds, ip = c :: ds /\ 49 <= c <= 57
                                  /\ Forall (fun c => is_digit c = true) ds)
    /\ (fr = [] \/ exists ds, fr = 46 :: ds /\ digit_run ds)
    /\ (ex = [] \/ exists e sg' ds, ex = e :: sg' ++ ds /\ (e = 101 \/ e = 69)
                                     /\ (sg' = [] \/ sg' = [43] \/ sg' = [45]) /\ digit_run ds)
    /\ (fr <> [] \/ ex <> []).

(** Helper predicates of the proof. *)

(** The text after a [\uXXXX] escape of a high surrogate does not start
    with the escape of a low surrogate. *)
Definition no_low_lookahead (t : pystr) : Prop :=
  forall g1 g2 g3 g4 s4 c2,
    t = BACKSLASH :: 117 :: g1 :: g2 :: g3 :: g4 :: s4 ->
    decode_hex4 g1 g2 g3 g4 = Some c2 -> is_low_surrogate c2 = false.

(** A character that ends a number token. *)
Definition stops (t : pystr) : Prop :=
  match t with
  | c :: _ => is_digit c = false /\ c <> 46 /\ c <> 101 /\ c <> 69
  | [] => True
  end.

Definition head_nondigit (t : pystr) : Prop :=
  match t with c :: _ => is_digit c = false | [] => True end.

Definition number_head (s : pystr) : Prop :=
  match s with
  | c :: r => is_digit c = true \/ (c = 45 /\ match r with d :: _ => is_digit d = true | [] => False end)
  | [] => False
  end.

Definition nonws_head (e : pystr) : Prop :=
  match e with c :: _ => is_ws c = false | [] => False end.

(** [scan_once] reads the text [e] back as [v], with at least [n] units
    of fuel and whatever follows as long as it ends a number. *)
Definition scans (fs : pystr -> float) (e : pystr) (v : pyobj) (n : nat) : Prop :=
  forall fuel t, (n <= fuel)%nat -> stops t -> scan_once fs (S fuel) (e ++ t) = inr (v, t).

(** One [key: value] line of a top-level object. *)
Definition item_enc (fr : float -> pystr) (kv : pystr * pyobj) : pystr :=
  encode_basestring_ascii kv.1 ++ u ": " ++ iterencode_text fr 1 kv.2.

(* ------------------------------------------------------------------ *)
(** ** Sample inputs *)

(** An adapter that fails for ["gpt-4o"] and answers ["OK"] otherwise. *)
Definition demo_usage : list (pystr * Z) := [(u "total_tokens", 7)].

Definition demo_adapter (h : list call) (c : call) : completion_result :=
  if decide (completion_model c = u "gpt-4o") then Raised (u "rate limited")
  else Completed (Some (u "OK")) demo_usage None.

Definition demo_payload (ms : list pystr) : EventPayload :=
  mkEventPayload (u "X") ms 4000 0.7%float None.

(** The adapter call for a key whose provider identifier is the key. *)
Definition demo_call (model_id : pystr) : call := mkCall model_id (u "X") 4000 0.7%float.

(** [float.__repr__] and [float()] on the sample temperature [0.7]. *)
Definition demo_float_repr (f : float) : pystr :=
  if (f =? 0.7)%float then u "0.7" else u "0.0".

Definition demo_float_of_str (s : pystr) : float :=
  if decide (s = u "0.7") then 0.7%float else 0%float.

(* ------------------------------------------------------------------ *)
(** ** Lemmas about the engine *)

Section EngineFacts.

Variable completion : list call -> call -> completion_result.

(** The record [process] appends after a failed call with message [e]. *)
Definition failed_attempt (model_key e : pystr) : attempt :=
  mkAttempt model_key (get_model_name model_key) (u "failed")
    (get_model_name model_key ++ u " failed: " ++ e).

Definition raised_msg (r : completion_result) : pystr :=
  match r with Raised e => e | Completed _ _ _ => [] end.

Fixpoint fail_records (ks : list pystr) (rs : list completion_result) : list attempt :=
  match ks, rs with
  | k :: ks', r :: rs' => failed_attempt k (raised_msg r) :: fail_records ks' rs'
  | _, _ => []
  end.

Definition is_failed (a : attempt) : Prop := att_status a = u "failed".

Lemma calls_for_cons (p : EventPayload) (k : pystr) (ks : list pystr) (cs : list call) :
  calls_for p (k :: ks) = Some cs ->
  exists c cs', call_for p k = Some c /\ calls_for p ks = Some cs' /\ cs = c :: cs'.
Proof.
  unfold calls_for. simpl.
  destruct (call_for p k) as [c|]; simpl; [|discriminate].
  destruct (mapM (call_for p) ks) as [cs'|]; simpl; [|discriminate].
  intros [= <-]. eauto.
Qed.

Lemma calls_for_length (p : EventPayload) (ks : list pystr) (cs : list call) :
  calls_for p ks = Some cs -> length cs = length ks.
Proof.
  revert cs. induction ks as [|k ks IH]; intros cs H.
  - unfold calls_for in H. simpl in H. injection H as <-. reflexivity.
  - apply calls_for_cons in H as (c & cs' & _ & H & ->). simpl. f_equal. auto.
Qed.

Lemma replies_length (h cs : list call) : length (replies completion h cs) = length cs.
Proof.
  revert h. induction cs as [|c cs IH]; intros h; simpl; [reflexivity|]. f_equal. apply IH.
Qed.

Lemma call_for_known (p : EventPayload) (k : pystr) (c : call) :
  call_for p k = Some c ->
  exists model_id, AVAILABLE_MODELS !! k = Some model_id /\
    c = mkCall model_id (prompt p) (max_tokens p) (temperature p).
Proof.
  unfold call_for. destruct (AVAILABLE_MODELS !! k) as [m|]; [|discriminate].
  intros [= <-]. eauto.
Qed.

(** One step of the loop on a key whose call fails. *)
Lemma process_loop_step_fail (p : EventPayload) (k : pystr) (rest : list pystr)
    (acc : list attempt) (h : list call) (c : call) (e : pystr) :
  call_for p k = Some c -> completion h c = Raised e ->
  process_loop completion p (k :: rest) acc h
  = process_loop completion p rest (acc ++ [failed_attempt k e]) (h ++ [c]).
Proof.
  intros Hc He. apply call_for_known in Hc as (m & Hm & ->).
  simpl. unfold bind, _call_model, bind, lift, get_model_id, completion_call, ret.
  rewrite Hm, He. reflexivity.
Qed.

(** One step of the loop on a key whose call succeeds. *)
Lemma process_loop_step_ok (p : EventPayload) (k : pystr) (rest : list pystr)
    (acc : list attempt) (h : list call) (c : call) ct us co :
  call_for p k = Some c -> completion h c = Completed ct us co ->
  process_loop completion p (k :: rest) acc h
  = (inr (mkSimpleResponse true ct (Some k) co (Some us) None
            (Some (acc ++ [mkAttempt k (get_model_name k) (u "success") []]))),
     h ++ [c]).
Proof.
  intros Hc He. apply call_for_known in Hc as (m & Hm & ->).
  simpl. unfold bind, _call_model, bind, lift, get_model_id, completion_call, ret.
  rewrite Hm, He. reflexivity.
Qed.

(** One step of the loop on a key missing from the registry. *)
Lemma process_loop_step_unknown (p : EventPayload) (k : pystr) (rest : list pystr)
    (acc : list attempt) (h : list call) :
  AVAILABLE_MODELS !! k = None ->
  process_loop completion p (k :: rest) acc h = (inl (ValueError_unknown k), h).
Proof.
  intros Hk. simpl. unfold bind, _call_model, bind, lift, get_model_id.
  rewrite Hk. reflexivity.
Qed.

(** A prefix of keys whose calls all fail is walked through in order,
    leaving one failed record and one call per key. *)
Lemma process_loop_fail_prefix (p : EventPayload) (pre rest : list pystr)
    (acc : list attempt) (h cs : list call) :
  calls_for p pre = Some cs ->
  Forall (fun r => is_raised r = true) (replies completion h cs) ->
  process_loop completion p (pre ++ rest) acc h
  = process_loop completion p rest (acc ++ fail_records pre (replies completion h cs))
      (h ++ cs).
Proof.
  revert acc h cs. induction pre as [|k pre IH]; intros acc h cs Hcs Hr.
  - unfold calls_for in Hcs. simpl in Hcs. injection Hcs as <-.
    simpl. rewrite !app_nil_r. reflexivity.
  - apply calls_for_cons in Hcs as (c & cs' & Hc & Hcs' & ->).
    simpl in Hr. apply Forall_cons in Hr as [Hr1 Hr].
    destruct (completion h c) as [ct us co|e] eqn:He; [discriminate|].
    simpl app. rewrite (process_loop_step_fail p k (pre ++ rest) acc h c e Hc He).
    rewrite (IH _ _ _ Hcs' Hr). simpl. rewrite He. simpl.
    rewrite <- !app_assoc. reflexivity.
Qed.

Lemma fail_records_length (ks : list pystr) (rs : list completion_result) :
  length rs = length ks -> length (fail_records ks rs) = length ks.
Proof.
  revert rs. induction ks as [|k ks IH]; intros [|r rs] H; simpl in *; try lia.
  f_equal. apply IH. lia.
Qed.

Lemma fail_records_models (ks : list pystr) (rs : list completion_result) :
  length rs = length ks -> map att_model (fail_records ks rs) = ks.
Proof.
  revert rs. induction ks as [|k ks IH]; intros [|r rs] H; simpl in *; try lia; auto.
  f_equal. apply IH. lia.
Qed.

Lemma fail_records_failed (ks : list pystr) (rs : list completion_result) :
  Forall is_failed (fail_records ks rs).
Proof.
  revert rs. induction ks as [|k ks IH]; intros [|r rs]; simpl; constructor; auto.
  reflexivity.
Qed.

(** Whatever the loop returns carries the records accumulated before. *)
Lemma process_loop_attempts_extend (p : EventPayload) (ms : list pystr)
    (acc : list attempt) (h : list call) (r : SimpleResponse) :
  fst (process_loop completion p ms acc h) = inr r ->
  exists more, attempts r = Some (acc ++ more).
Proof.
  revert acc h. induction ms as [|k ms IH]; intros acc h Hr.
  - simpl in Hr. injection Hr as <-. exists []. rewrite app_nil_r. reflexivity.
  - destruct (AVAILABLE_MODELS !! k) as [m|] eqn:Hk.
    + set (c := mkCall m (prompt p) (max_tokens p) (temperature p)).
      assert (Hc : call_for p k = Some c) by (unfold call_for; rewrite Hk; reflexivity).
      destruct (completion h c) as [ct us co|e] eqn:He.
      * rewrite (process_loop_step_ok p k ms acc h c ct us co Hc He) in Hr.
        injection Hr as <-. simpl. eauto.
      * rewrite (process_loop_step_fail p k ms acc h c e Hc He) in Hr.
        apply IH in Hr as [more Hm]. rewrite Hm, <- app_assoc. eauto.
    + rewrite (process_loop_step_unknown p k ms acc h Hk) in Hr. discriminate.
Qed.

End EngineFacts.

(* ------------------------------------------------------------------ *)
(** ** The fallback engine *)

Section EngineClaims.

Variable completion : list call -> call -> completion_result.

(** C1: when the calls for the models at positions [0..k-1] all fail and
    the call for the model at position [k] succeeds, [process] returns
    [success=True], [model_used = models[k]], and [k+1] attempt records,
    all but the last failed and the last a success (with [k = 0] when the
    first model succeeds). *)
Theorem process_kth_success (p : EventPayload) (h : list call) (pre post : list pystr)
    (mk : pystr) (cs : list call) (c : call) (ct : option pystr) (us : list (pystr * Z))
    (co : option float) :
  models p = pre ++ mk :: post ->
  calls_for p pre = Some cs ->
  Forall (fun r => is_raised r = true) (replies completion h cs) ->
  call_for p mk = Some c ->
  completion (h ++ cs) c = Completed ct us co ->
  exists atts,
    process completion p h
    = (inr (mkSimpleResponse true ct (Some mk) co (Some us) None (Some atts)),
       h ++ cs ++ [c])
    /\ models p !! length pre = Some mk
    /\ length atts = S (length pre)
    /\ Forall is_failed (removelast atts)
    /\ (exists a, last atts = Some a /\ att_status a = u "success")
    /\ map att_model atts = pre ++ [mk].
Proof.
  intros Hm Hcs Hr Hc Hok. unfold process. rewrite Hm.
  rewrite (process_loop_fail_prefix completion p pre (mk :: post) [] h cs Hcs Hr).
  rewrite (process_loop_step_ok completion p mk post _ (h ++ cs) c ct us co Hc Hok).
  set (rs := replies completion h cs).
  assert (Hlen : length rs = length pre).
  { unfold rs. rewrite replies_length. apply (calls_for_length p pre cs Hcs). }
  exists (fail_records pre rs ++ [mkAttempt mk (get_model_name mk) (u "success") []]).
  split; [rewrite <- (app_assoc h cs [c]); reflexivity|].
  split; [apply list_lookup_middle; reflexivity|].
  simpl app. rewrite removelast_last, last_snoc, map_app, length_app.
  rewrite fail_records_models, fail_records_length by exact Hlen. simpl.
  repeat split; [lia | apply fail_records_failed | eexists; split; reflexivity].
Qed.

(** C2 (amended): a model key absent from the registry, reached after
    the earlier models failed, makes [process] raise the [ValueError] of
    [get_model_id]; no attempt is recorded for it and no later model is
    called. *)
Theorem process_unknown_key_raises (p : EventPayload) (h : list call)
    (pre post : list pystr) (k : pystr) (cs : list call) :
  models p = pre ++ k :: post ->
  calls_for p pre = Some cs ->
  Forall (fun r => is_raised r = true) (replies completion h cs) ->
  AVAILABLE_MODELS !! k = None ->
  process completion p h = (inl (ValueError_unknown k), h ++ cs).
Proof.
  intros Hm Hcs Hr Hk. unfold process. rewrite Hm.
  rewrite (process_loop_fail_prefix completion p pre (k :: post) [] h cs Hcs Hr).
  apply process_loop_step_unknown. exact Hk.
Qed.

Lemma process_loop_outcome (p : EventPayload) (ms : list pystr) (acc : list attempt)
    (h : list call) :
  (exists r, fst (process_loop completion p ms acc h) = inr r)
  \/ (exists k, fst (process_loop completion p ms acc h) = inl (ValueError_unknown k)
               /\ k ∈ ms /\ AVAILABLE_MODELS !! k = None).
Proof.
  revert acc h. induction ms as [|k ms IH]; intros acc h.
  - left. simpl. eauto.
  - destruct (AVAILABLE_MODELS !! k) as [m|] eqn:Hk.
    + set (c := mkCall m (prompt p) (max_tokens p) (temperature p)).
      assert (Hc : call_for p k = Some c) by (unfold call_for; rewrite Hk; reflexivity).
      destruct (completion h c) as [ct us co|e] eqn:He.
      * left. rewrite (process_loop_step_ok completion p k ms acc h c ct us co Hc He). eauto.
      * rewrite (process_loop_step_fail completion p k ms acc h c e Hc He).
        destruct (IH (acc ++ [failed_attempt k e]) (h ++ [c])) as [H|(k' & H1 & H2 & H3)].
        -- left. exact H.
        -- right. exists k'. split; [exact H1|]. split; [right; exact H2|exact H3].
    + right. exists k. rewrite (process_loop_step_unknown completion p k ms acc h Hk).
      split; [reflexivity|]. split; [left|exact Hk].
Qed.

(** C3 (amended): the only exception that leaves [process] is the
    [ValueError] of [get_model_id] for a key of the list that is absent
    from the registry; otherwise [process] returns a [SimpleResponse]
    (so with all keys registered it always returns one). *)
Theorem process_exception_only_unknown (p : EventPayload) (h : list call) :
  (exists r, fst (process completion p h) = inr r)
  \/ (exists k, fst (process completion p h) = inl (ValueError_unknown k)
               /\ k ∈ models p /\ AVAILABLE_MODELS !! k = None).
Proof. apply process_loop_outcome. Qed.

(** C4: when the call for every model of the list fails, [process]
    returns [success=False], one failed record per model, and the error
    ["All N models failed"] with [N = len(payload.models)]. *)
Theorem process_all_fail (p : EventPayload) (h cs : list call) :
  calls_for p (models p) = Some cs ->
  Forall (fun r => is_raised r = true) (replies completion h cs) ->
  exists atts,
    process completion p h
    = (inr (mkSimpleResponse false None None None None
              (Some (u "All " ++ int_repr (Z.of_nat (length (models p)))
                       ++ u " models failed"))
              (Some atts)),
       h ++ cs)
    /\ length atts = length (models p)
    /\ Forall is_failed atts.
Proof.
  intros Hcs Hr. unfold process.
  pose proof (process_loop_fail_prefix completion p (models p) [] [] h cs Hcs Hr) as E.
  rewrite app_nil_r in E. rewrite E. simpl.
  eexists. split; [reflexivity|]. split.
  - apply fail_records_length. rewrite replies_length. apply (calls_for_length p _ cs Hcs).
  - apply fail_records_failed.
Qed.

(** C5 (amended): the failed record appended for a model whose adapter
    call fails with message [e] has the error text
    [f"{model_name} failed: {e}"]: the adapter's message verbatim after
    the display name and [" failed: "]. *)
Theorem process_failed_attempt_error (p : EventPayload) (h : list call)
    (pre post : list pystr) (k : pystr) (cs : list call) (c : call) (e : pystr) :
  models p = pre ++ k :: post ->
  calls_for p pre = Some cs ->
  Forall (fun r => is_raised r = true) (replies completion h cs) ->
  call_for p k = Some c ->
  completion (h ++ cs) c = Raised e ->
  forall r, fst (process completion p h) = inr r ->
  exists atts, attempts r = Some atts
    /\ atts !! length pre
       = Some (mkAttempt k (get_model_name k) (u "failed")
                 (get_model_name k ++ u " failed: " ++ e)).
Proof.
  intros Hm Hcs Hr Hc He r Hres. unfold process in Hres. rewrite Hm in Hres.
  rewrite (process_loop_fail_prefix completion p pre (k :: post) [] h cs Hcs Hr) in Hres.
  rewrite (process_loop_step_fail completion p k post _ (h ++ cs) c e Hc He) in Hres.
  apply process_loop_attempts_extend in Hres as [more Hmore].
  eexists. split; [exact Hmore|].
  rewrite <- app_assoc. simpl. apply list_lookup_middle.
  rewrite fail_records_length; [reflexivity|].
  rewrite replies_length. apply (calls_for_length p pre cs Hcs).
Qed.

Lemma process_loop_forward (p : EventPayload) (ms : list pystr) (acc : list attempt)
    (h : list call) :
  exists (n : nat) (cs : list call),
    (n <= length ms)%nat
    /\ calls_for p (take n ms) = Some cs
    /\ snd (process_loop completion p ms acc h) = h ++ cs
    /\ (forall r, fst (process_loop completion p ms acc h) = inr r ->
        exists atts, attempts r = Some (acc ++ atts)
          /\ map att_model atts = take n ms
          /\ Forall is_failed (removelast atts)
          /\ (success r = false -> n = length ms)).
Proof.
  revert acc h. induction ms as [|k ms IH]; intros acc h.
  - exists 0%nat, []. simpl. repeat split; [lia|..|].
    + rewrite app_nil_r. reflexivity.
    + intros r Hr. injection Hr as <-. exists []. rewrite app_nil_r.
      repeat split; constructor.
  - destruct (AVAILABLE_MODELS !! k) as [m|] eqn:Hk.
    + set (c := mkCall m (prompt p) (max_tokens p) (temperature p)).
      assert (Hc : call_for p k = Some c) by (unfold call_for; rewrite Hk; reflexivity).
      destruct (completion h c) as [ct us co|e] eqn:He.
      * rewrite (process_loop_step_ok completion p k ms acc h c ct us co Hc He).
        exists 1%nat, [c]. simpl. repeat split; [lia| |].
        -- unfold calls_for. simpl. rewrite Hc. reflexivity.
        -- intros r Hr. injection Hr as <-. eexists. repeat split; [constructor|].
           simpl. discriminate.
      * rewrite (process_loop_step_fail completion p k ms acc h c e Hc He).
        destruct (IH (acc ++ [failed_attempt k e]) (h ++ [c]))
          as (n & cs & Hn & Hcs & Htr & Hatt).
        exists (S n), (c :: cs). simpl. repeat split; [lia| | |].
        -- unfold calls_for in *. simpl. rewrite Hc, Hcs. reflexivity.
        -- rewrite Htr, <- app_assoc. reflexivity.
        -- intros r Hr. destruct (Hatt r Hr) as (atts & Ha & Hmap & Hf & Hs).
           exists (failed_attempt k e :: atts). rewrite Ha, <- app_assoc.
           repeat split; [simpl; rewrite Hmap; reflexivity| |].
           ++ destruct atts as [|a atts]; simpl; [constructor|].
              constructor; [reflexivity|exact Hf].
           ++ intros Hfalse. rewrite (Hs Hfalse). reflexivity.
    + rewrite (process_loop_step_unknown completion p k ms acc h Hk).
      exists 0%nat, []. simpl. repeat split; [lia|..|].
      * rewrite app_nil_r. reflexivity.
      * intros r Hr. discriminate.
Qed.

(** C6: [process] moves strictly forward through the list: the calls it
    makes are those for the first [n] models, in list order, one each;
    the returned records are for [models[0..n-1]] in that order, every
    record but the last is a failure (so nothing is called after a
    success), and a run without success has tried the whole list. *)
Theorem process_forward_progress (p : EventPayload) (h : list call) :
  exists (n : nat) (cs : list call),
    (n <= length (models p))%nat
    /\ calls_for p (take n (models p)) = Some cs
    /\ snd (process completion p h) = h ++ cs
    /\ (forall r, fst (process completion p h) = inr r ->
        exists atts, attempts r = Some atts
          /\ map att_model atts = take n (models p)
          /\ Forall is_failed (removelast atts)
          /\ (success r = false -> n = length (models p))).
Proof.
  destruct (process_loop_forward p (models p) [] h) as (n & cs & H1 & H2 & H3 & H4).
  exists n, cs. repeat split; [exact H1|exact H2|exact H3|].
  intros r Hr. destruct (H4 r Hr) as (atts & Ha & Hb). exists atts. split; [exact Ha|exact Hb].
Qed.

End EngineClaims.

(* ------------------------------------------------------------------ *)
(** ** Registry and payload accessors *)

(** C8: for a non-empty model list, [primary_model] is [models[0]] and
    [fallback_models] is [models[1:]], empty when the list has one
    entry. *)
Theorem primary_fallback_split (p : EventPayload) (m : pystr) (ms : list pystr) :
  models p = m :: ms ->
  primary_model p = Some m
  /\ fallback_models p = ms
  /\ (ms = [] -> fallback_models p = []).
Proof.
  intros Hm. unfold primary_model, fallback_models. rewrite Hm.
  destruct ms as [|m' ms]; simpl; repeat split; auto.
Qed.

(** C9: [get_model_name] is total: it returns the registered display
    name when there is one, and the key itself otherwise. *)
Theorem get_model_name_total (model_key : pystr) :
  (exists name, MODEL_NAMES !! model_key = Some name /\ get_model_name model_key = name)
  \/ (MODEL_NAMES !! model_key = None /\ get_model_name model_key = model_key).
Proof.
  unfold get_model_name. destruct (MODEL_NAMES !! model_key) as [name|]; [left|right]; eauto.
Qed.

Lemma mapM_as_str (ms : list pystr) : mapM as_str (map PStr ms) = Some ms.
Proof.
  induction ms as [|m ms IH]; [reflexivity|]. simpl. rewrite IH. reflexivity.
Qed.

(** C10: a dictionary with only ["prompt"] and ["models"] gives a payload
    with [max_tokens = 4000], [temperature = 0.7] and [request_id = None]. *)
Theorem from_dict_defaults (pr : pystr) (ms : list pystr) :
  from_dict (PDict [(u "prompt", PStr pr); (u "models", PList (map PStr ms))])
  = inr (mkEventPayload pr ms 4000 0.7%float None).
Proof.
  assert (E : forall vm,
    from_dict (PDict [(u "prompt", PStr pr); (u "models", vm)])
    = match as_str_list vm with
      | Some ms' => inr (mkEventPayload pr ms' 4000 0.7%float None)
      | None => inl Untyped
      end).
  { intros vm. unfold from_dict. cbv -[as_str_list]. destruct (as_str_list vm); reflexivity. }
  rewrite E. unfold as_str_list. rewrite mapM_as_str. reflexivity.
Qed.

(* ------------------------------------------------------------------ *)
(** ** The JSON round trip *)

(** *** Hexadecimal escapes and surrogate pairs *)

Ltac zcases :=
  repeat match goal with
  | |- context [?a <=? ?b] => destruct (Z.leb_spec a b)
  | |- context [?a <? ?b] => destruct (Z.ltb_spec a b)
  | |- context [?a =? ?b] => destruct (Z.eqb_spec a b)
  end.

Lemma hexval_hexdigit (k : Z) : 0 <= k < 16 -> hexval (hexdigit k) = Some k.
Proof.
  intros Hk. unfold hexdigit, hexval.
  destruct (Z.ltb_spec k 10); simpl; zcases; simpl; try lia; f_equal; lia.
Qed.

Lemma land15 (a : Z) : 0 <= a -> Z.land a 15 = a mod 16.
Proof. intros. change 15 with (Z.ones 4). rewrite Z.land_ones; [reflexivity|lia]. Qed.

Lemma decode_hex4_hex4 (n : Z) : 0 <= n < 65536 ->
  decode_hex4 (hexdigit (Z.land (Z.shiftr n 12) 15)) (hexdigit (Z.land (Z.shiftr n 8) 15))
              (hexdigit (Z.land (Z.shiftr n 4) 15)) (hexdigit (Z.land n 15)) = Some n.
Proof.
  intros Hn.
  rewrite !Z.shiftr_div_pow2 by lia.
  rewrite !land15 by (first [lia | apply Z.div_pos; lia]).
  unfold decode_hex4.
  rewrite !hexval_hexdigit by (apply Z.mod_pos_bound; lia).
  f_equal.
  change (2 ^ 12) with 4096. change (2 ^ 8) with 256. change (2 ^ 4) with 16.
  assert (E1 : n = 16 * (n / 16) + n mod 16) by (apply Z.div_mod; lia).
  assert (E2 : n / 16 = 16 * (n / 256) + (n / 16) mod 16).
  { replace (n / 256) with (n / 16 / 16) by (rewrite Z.div_div; [reflexivity|lia|lia]). apply Z.div_mod; lia. }
  assert (E3 : n / 256 = 16 * (n / 4096) + (n / 256) mod 16).
  { replace (n / 4096) with (n / 256 / 16) by (rewrite Z.div_div; [reflexivity|lia|lia]). apply Z.div_mod; lia. }
  assert (E4 : (n / 4096) mod 16 = n / 4096).
  { apply Z.mod_small. split; [apply Z.div_pos; lia|]. apply Z.div_lt_upper_bound; lia. }
  rewrite E4.
  generalize dependent (n / 16); generalize dependent (n / 256); generalize dependent (n / 4096).
  intros. lia.
Qed.

Lemma lor_low10 (a x : Z) : 0 <= x < 1024 -> a mod 1024 = 0 -> Z.lor a x = a + x.
Proof.
  intros Hx Ha.
  assert (L : Z.land a x = 0).
  { assert (Ex : x = Z.land x (Z.ones 10)).
    { rewrite Z.land_ones by lia. symmetry. apply Z.mod_small. simpl. lia. }
    rewrite Ex, (Z.land_comm x), Z.land_assoc.
    rewrite Z.land_ones by lia. change (2 ^ 10) with 1024. rewrite Ha. apply Z.land_0_l. }
  rewrite Z.add_nocarry_lxor by exact L. symmetry. apply Z.lxor_lor. exact L.
Qed.

Lemma land1023 (a : Z) : Z.land a 1023 = a mod 1024.
Proof. change 1023 with (Z.ones 10). rewrite Z.land_ones; [reflexivity|lia]. Qed.

Section Astral.
Variable c : Z.
Hypothesis Hc : 65536 <= c <= 1114111.

Lemma astral_hi : Z.lor 55296 (Z.land (Z.shiftr (c - 65536) 10) 1023) = 55296 + (c - 65536) / 1024.
Proof.
  rewrite land1023, Z.shiftr_div_pow2 by lia. change (2 ^ 10) with 1024.
  assert (B : 0 <= (c - 65536) / 1024 < 1024).
  { split; [apply Z.div_pos; lia|]. apply Z.div_lt_upper_bound; lia. }
  rewrite (Z.mod_small ((c - 65536) / 1024)) by exact B.
  apply lor_low10; [exact B|reflexivity].
Qed.

Lemma astral_lo : Z.lor 56320 (Z.land (c - 65536) 1023) = 56320 + (c - 65536) mod 1024.
Proof.
  rewrite land1023. apply lor_low10; [apply Z.mod_pos_bound; lia|reflexivity].
Qed.

Lemma astral_hi_high : is_high_surrogate (Z.lor 55296 (Z.land (Z.shiftr (c - 65536) 10) 1023)) = true /\ 0 <= Z.lor 55296 (Z.land (Z.shiftr (c - 65536) 10) 1023) < 65536.
Proof.
  rewrite astral_hi. unfold is_high_surrogate.
  assert (0 <= (c - 65536) / 1024 < 1024).
  { split; [apply Z.div_pos; lia|]. apply Z.div_lt_upper_bound; lia. }
  split; [apply andb_true_iff; split; apply Z.leb_le|]; lia.
Qed.

Lemma astral_lo_low : is_low_surrogate (Z.lor 56320 (Z.land (c - 65536) 1023)) = true /\ 0 <= Z.lor 56320 (Z.land (c - 65536) 1023) < 65536.
Proof.
  rewrite astral_lo. unfold is_low_surrogate.
  assert (0 <= (c - 65536) mod 1024 < 1024) by (apply Z.mod_pos_bound; lia).
  split; [apply andb_true_iff; split; apply Z.leb_le|]; lia.
Qed.

Lemma astral_join : join_surrogates (Z.lor 55296 (Z.land (Z.shiftr (c - 65536) 10) 1023)) (Z.lor 56320 (Z.land (c - 65536) 1023)) = c.
Proof.
  unfold join_surrogates. rewrite astral_hi, astral_lo, !land1023.
  assert (B : 0 <= (c - 65536) / 1024 < 1024).
  { split; [apply Z.div_pos; lia|]. apply Z.div_lt_upper_bound; lia. }
  assert (0 <= (c - 65536) mod 1024 < 1024) by (apply Z.mod_pos_bound; lia).
  replace ((55296 + (c - 65536) / 1024) mod 1024) with ((c - 65536) / 1024).
  2:{ replace (55296 + (c - 65536) / 1024) with ((c - 65536) / 1024 + 54 * 1024) by lia.
      rewrite Z.mod_add by lia. symmetry. apply Z.mod_small. exact B. }
  replace ((56320 + (c - 65536) mod 1024) mod 1024) with ((c - 65536) mod 1024).
  2:{ replace (56320 + (c - 65536) mod 1024) with ((c - 65536) mod 1024 + 55 * 1024) by lia.
      rewrite Z.mod_add by lia. rewrite Z.mod_mod by lia. reflexivity. }
  rewrite Z.shiftl_mul_pow2 by lia. change (2 ^ 10) with 1024.
  rewrite lor_low10; [| assumption | apply Z.mod_mul; lia ].
  assert ((c - 65536) = 1024 * ((c - 65536) / 1024) + (c - 65536) mod 1024) by (apply Z.div_mod; lia).
  lia.
Qed.
End Astral.

(** *** [scanstring] inverts [py_encode_basestring_ascii] *)

Lemma escape_lookahead (x : Z) (t : pystr) :
  in_range x = true -> is_low_surrogate x = false -> no_low_lookahead (escape_char x ++ t).
Proof.
  intros R NL g1 g2 g3 g4 s4 c2 E D.
  unfold in_range in R. apply andb_true_iff in R as [R1 R2].
  apply Z.leb_le in R1, R2.
  unfold escape_char in E.
  destruct (Z.eqb_spec x BACKSLASH); [discriminate E|].
  destruct (Z.eqb_spec x QUOTE); [discriminate E|].
  destruct ((32 <=? x) && (x <=? 126)); [injection E; intros; congruence|].
  destruct (Z.eqb_spec x 8); [discriminate E|].
  destruct (Z.eqb_spec x 12); [discriminate E|].
  destruct (Z.eqb_spec x 10); [discriminate E|].
  destruct (Z.eqb_spec x 13); [discriminate E|].
  destruct (Z.eqb_spec x 9); [discriminate E|].
  destruct (Z.ltb_spec x 65536).
  - simpl in E. injection E as E1 E2 E3 E4 _; subst g1 g2 g3 g4.
    rewrite decode_hex4_hex4 in D by lia. injection D as <-. exact NL.
  - simpl in E. injection E as E1 E2 E3 E4 _; subst g1 g2 g3 g4.
    destruct (astral_hi_high x ltac:(lia)) as [Hh Hb].
    rewrite decode_hex4_hex4 in D by exact Hb. injection D as <-.
    unfold is_high_surrogate, is_low_surrogate in *.
    apply andb_true_iff in Hh as [Hh1 Hh2]. apply Z.leb_le in Hh1, Hh2.
    apply andb_false_iff. left. apply Z.leb_gt. lia.
Qed.

(** One step of [scanstring] on a [\uXXXX] escape. *)
Lemma scanstring_u (h1 h2 h3 h4 : Z) (s3 : pystr) :
  scanstring (BACKSLASH :: 117 :: h1 :: h2 :: h3 :: h4 :: s3) =
  match s3 with
  | [] => None
  | _ :: _ =>
      match decode_hex4 h1 h2 h3 h4 with
      | None => None
      | Some c1 =>
          if is_high_surrogate c1 then
            match s3 with
            | b :: v :: g1 :: g2 :: g3 :: g4 :: ((_ :: _) as s4) =>
                if (b =? BACKSLASH) && (v =? 117) then
                  match decode_hex4 g1 g2 g3 g4 with
                  | None => None
                  | Some c2 =>
                      if is_low_surrogate c2
                      then cons_res (join_surrogates c1 c2) (scanstring s4)
                      else cons_res c1 (scanstring s3)
                  end
                else cons_res c1 (scanstring s3)
            | _ => cons_res c1 (scanstring s3)
            end
          else cons_res c1 (scanstring s3)
      end
  end.
Proof. reflexivity. Qed.

Lemma scanstring_escape_char (x : Z) (t : pystr) :
  in_range x = true -> t <> [] ->
  (is_high_surrogate x = true -> no_low_lookahead t) ->
  scanstring (escape_char x ++ t) = cons_res x (scanstring t).
Proof.
  intros R NE LA.
  unfold in_range in R. apply andb_true_iff in R as [R1 R2].
  apply Z.leb_le in R1, R2.
  destruct t as [|t0 t']; [congruence|].
  unfold escape_char.
  destruct (Z.eqb_spec x BACKSLASH); [subst; reflexivity|].
  destruct (Z.eqb_spec x QUOTE); [subst; reflexivity|].
  destruct ((32 <=? x) && (x <=? 126)) eqn:Pr.
  { simpl. apply andb_true_iff in Pr as [P1 P2]. apply Z.leb_le in P1, P2.
    destruct (Z.eqb_spec x QUOTE); [congruence|].
    destruct (Z.eqb_spec x BACKSLASH); [congruence|].
    destruct (Z.leb_spec x 31); [lia|]. reflexivity. }
  destruct (Z.eqb_spec x 8); [subst; reflexivity|].
  destruct (Z.eqb_spec x 12); [subst; reflexivity|].
  destruct (Z.eqb_spec x 10); [subst; reflexivity|].
  destruct (Z.eqb_spec x 13); [subst; reflexivity|].
  destruct (Z.eqb_spec x 9); [subst; reflexivity|].
  destruct (Z.ltb_spec x 65536).
  - unfold hex4. cbn [app]. rewrite scanstring_u.
    rewrite decode_hex4_hex4 by lia.
    destruct (is_high_surrogate x) eqn:Hx; [|reflexivity].
    specialize (LA eq_refl).
    destruct t' as [|b [|v [|g1 [|g2 [|g3 [|g4 s4]]]]]]; try reflexivity.
    destruct ((t0 =? BACKSLASH) && (b =? 117)) eqn:Eb; [|reflexivity].
    apply andb_true_iff in Eb as [Eb1 Eb2]. apply Z.eqb_eq in Eb1, Eb2. subst t0 b.
    destruct (decode_hex4 v g1 g2 g3) as [c2|] eqn:D; [|rewrite scanstring_u, D; reflexivity].
    rewrite (LA _ _ _ _ _ _ eq_refl D). reflexivity.
  - unfold hex4. cbn [app]. rewrite scanstring_u.
    assert (Hx : 65536 <= x <= 1114111) by lia.
    destruct (astral_hi_high x Hx) as [Hh Hb].
    destruct (astral_lo_low x) as [Hl Hlb].
    rewrite decode_hex4_hex4 by exact Hb. rewrite Hh.
    cbn [andb]. rewrite decode_hex4_hex4 by exact Hlb. rewrite Hl.
    rewrite astral_join by lia. reflexivity.
Qed.

Lemma valid_str_cons (x : Z) (s : pystr) :
  valid_str (x :: s) = true ->
  in_range x = true /\ valid_str s = true /\
  (is_high_surrogate x = true -> match s with y :: _ => is_low_surrogate y = false | [] => True end).
Proof.
  unfold valid_str. simpl. intros V.
  apply andb_true_iff in V as [[R F]%andb_true_iff NP].
  destruct s as [|y s]; [repeat split; assumption|].
  apply andb_true_iff in NP as [NP1 NP2].
  repeat split; try assumption. { rewrite F. exact NP2. }
  intros Hh. rewrite Hh in NP1. destruct (is_low_surrogate y); [discriminate|reflexivity].
Qed.

Lemma scanstring_escaped (s rest : pystr) :
  valid_str s = true ->
  scanstring (flat_map escape_char s ++ QUOTE :: rest) = Some (s, rest).
Proof.
  induction s as [|x s IH]; intros V; [reflexivity|].
  destruct (valid_str_cons x s V) as (R & V' & NP).
  cbn [flat_map]. rewrite <- app_assoc.
  rewrite scanstring_escape_char; [rewrite IH by exact V'; reflexivity|exact R| |].
  - intros E. apply app_eq_nil in E as [_ E]. discriminate E.
  - intros Hh. specialize (NP Hh). destruct s as [|y s].
    + intros g1 g2 g3 g4 s4 c2 E. discriminate E.
    + cbn [flat_map]. rewrite <- app_assoc.
      apply escape_lookahead; [|exact NP].
      destruct (valid_str_cons y s V') as (Ry & _). exact Ry.
Qed.

Lemma scan_once_str (fuel : nat) (fs : pystr -> float) (s rest : pystr) :
  valid_str s = true ->
  scan_once fs (S fuel) (encode_basestring_ascii s ++ rest) = inr (PStr s, rest).
Proof.
  intros V. unfold encode_basestring_ascii. rewrite <- !app_assoc. cbn [app].
  simpl scan_once. rewrite scanstring_escaped by exact V. reflexivity.
Qed.

(** *** [_match_number_unicode] on [int.__repr__] and on float literals *)

Lemma stops_head (t : pystr) : stops t -> head_nondigit t.
Proof. destruct t; simpl; tauto. Qed.

Lemma span_digits_app (ds t : pystr) :
  Forall (fun c => is_digit c = true) ds -> head_nondigit t ->
  span_digits (ds ++ t) = (ds, t).
Proof.
  intros F H. induction F as [|d ds Hd F IH]; simpl.
  - destruct t as [|c t]; simpl in *; [reflexivity|]. rewrite H. reflexivity.
  - rewrite Hd, IH. reflexivity.
Qed.

Lemma stops_frac (t : pystr) : stops t -> match_frac t = None.
Proof.
  destruct t as [|c [|d t]]; simpl; [reflexivity|reflexivity|].
  intros (_ & H46 & _). destruct (Z.eqb_spec c 46); [contradiction|reflexivity].
Qed.

Lemma stops_exp (t : pystr) : stops t -> match_exp t = None.
Proof.
  destruct t as [|c t]; simpl; [reflexivity|].
  intros (_ & _ & H101 & H69).
  destruct (Z.eqb_spec c 101); [contradiction|]. destruct (Z.eqb_spec c 69); [contradiction|].
  reflexivity.
Qed.

Lemma uint_chars_digits (d : Decimal.uint) : Forall (fun c => is_digit c = true) (uint_chars d).
Proof. induction d; simpl; constructor; auto. Qed.

Lemma uint_of_uint_chars (d : Decimal.uint) : uint_of_chars (uint_chars d) = d.
Proof.
  induction d; unfold uint_of_chars in *; simpl; rewrite ?IHd; reflexivity.
Qed.

Lemma nzhead_lead (d : Decimal.uint) :
  match Decimal.nzhead d with Decimal.D0 _ => False | _ => True end.
Proof. induction d; simpl; auto. Qed.

Lemma to_uint_lead (p : positive) :
  exists c ds, uint_chars (Pos.to_uint p) = c :: ds /\ 49 <= c <= 57.
Proof.
  assert (E : Pos.to_uint p = Decimal.unorm (Pos.to_uint p)).
  { rewrite <- DecimalPos.Unsigned.to_of, DecimalPos.Unsigned.of_to. reflexivity. }
  pose proof (DecimalPos.Unsigned.to_uint_nonzero p) as NZ.
  unfold Decimal.unorm in E.
  pose proof (nzhead_lead (Pos.to_uint p)) as L.
  destruct (Decimal.nzhead (Pos.to_uint p)) eqn:Ez;
    rewrite E; try contradiction; try (rewrite E in NZ; contradiction);
    simpl; eexists _, _; split; try reflexivity; lia.
Qed.

Lemma match_int_digits_lead (c : Z) (ds t : pystr) :
  49 <= c <= 57 -> Forall (fun c => is_digit c = true) ds -> head_nondigit t ->
  match_int_digits (c :: ds ++ t) = Some (c :: ds, t).
Proof.
  intros Hc F H. simpl.
  destruct (Z.leb_spec 49 c); [|lia]. destruct (Z.leb_spec c 57); [|lia]. simpl.
  rewrite span_digits_app by assumption. reflexivity.
Qed.

Lemma match_number_int (fs : pystr -> float) (z : Z) (t : pystr) :
  stops t ->
  match_number fs (int_repr z ++ t)
  = if Nat.ltb int_max_str_digits (int_str_digits z) then inl IntMaxStrDigits
    else inr (PInt z, t).
Proof.
  intros St. pose proof (stops_head t St) as Hd.
  pose proof (stops_frac t St) as Fr. pose proof (stops_exp t St) as Ex.
  destruct z as [|p|p].
  - unfold match_number, int_str_digits. simpl. rewrite Fr, Ex. reflexivity.
  - destruct (to_uint_lead p) as (c & ds & E & Hc).
    replace (int_str_digits (Zpos p)) with (length (c :: ds))
      by (unfold int_str_digits, int_repr; change (Z.abs (Zpos p)) with (Zpos p);
          change (Z.to_int (Zpos p)) with (Decimal.Pos (Pos.to_uint p)); cbv iota;
          rewrite E; reflexivity).
    unfold match_number, int_repr. cbn [Z.to_int]. rewrite E.
    assert (Hds : Forall (fun c => is_digit c = true) ds).
    { pose proof (uint_chars_digits (Pos.to_uint p)) as F. rewrite E in F. inversion F; assumption. }
    cbn [app]. destruct (Z.eqb_spec c 45); [lia|].
    rewrite match_int_digits_lead by assumption. rewrite Fr, Ex. cbv iota beta zeta.
    destruct (Nat.ltb int_max_str_digits (length (c :: ds))); [reflexivity|].
    rewrite <- E, uint_of_uint_chars.
    change (Decimal.Pos (Pos.to_uint p)) with (Z.to_int (Zpos p)). rewrite DecimalZ.of_to.
    reflexivity.
  - destruct (to_uint_lead p) as (c & ds & E & Hc).
    replace (int_str_digits (Zneg p)) with (length (c :: ds))
      by (unfold int_str_digits, int_repr; change (Z.abs (Zneg p)) with (Zpos p);
          change (Z.to_int (Zpos p)) with (Decimal.Pos (Pos.to_uint p)); cbv iota;
          rewrite E; reflexivity).
    unfold match_number, int_repr. cbn [Z.to_int]. rewrite E.
    assert (Hds : Forall (fun c => is_digit c = true) ds).
    { pose proof (uint_chars_digits (Pos.to_uint p)) as F. rewrite E in F. inversion F; assumption. }
    cbn [app]. change (45 =? 45) with true. cbv iota beta.
    rewrite match_int_digits_lead by assumption. rewrite Fr, Ex. cbv iota beta zeta.
    destruct (Nat.ltb int_max_str_digits (length (c :: ds))); [reflexivity|].
    rewrite <- E, uint_of_uint_chars.
    change (Decimal.Neg (Pos.to_uint p)) with (Z.to_int (Zneg p)). rewrite DecimalZ.of_to.
    reflexivity.
Qed.

Lemma match_number_float (fs : pystr -> float) (s t : pystr) :
  float_literal s -> stops t -> match_number fs (s ++ t) = inr (PFloat (fs s), t).
Proof.
  intros (sg & ip & fr & ex & -> & Hsg & Hip & Hfr & Hex & Hne) St.
  pose proof (stops_head t St) as Hd.
  (* the exponent part *)
  assert (Eex : match_exp (ex ++ t) = match ex with [] => None | _ => Some (ex, t) end).
  { destruct Hex as [->|(e & sg' & ds & -> & He & Hsg' & Hds & Fds)].
    - apply stops_exp. exact St.
    - cbn [app match_exp].
      assert (Ee : (e =? 101) || (e =? 69) = true).
      { destruct He as [->| ->]; reflexivity. }
      rewrite Ee.
      destruct ds as [|d ds']; [contradiction|].
      inversion Fds as [|? ? Hdd Fds']; subst.
      destruct Hsg' as [->|[-> | ->]]; cbn [app].
      + assert (Sg : match d :: ds' ++ t with
                     | c :: (_ :: _) as s' => if (c =? 45) || (c =? 43) then ([c], s') else ([], d :: ds' ++ t)
                     | _ => ([], d :: ds' ++ t) end = ([], d :: ds' ++ t)).
        { unfold is_digit in Hdd. apply andb_true_iff in Hdd as [H1 H2].
          apply Z.leb_le in H1, H2.
          destruct (ds' ++ t); [reflexivity|].
          destruct (Z.eqb_spec d 45); [lia|]. destruct (Z.eqb_spec d 43); [lia|]. reflexivity. }
        rewrite Sg. change (d :: ds' ++ t) with ((d :: ds') ++ t).
        rewrite span_digits_app by (first [exact Hd | constructor; assumption]). reflexivity.
      + change (43 =? 45) with false. change (43 =? 43) with true. cbn [orb]. cbv iota beta.
        change (d :: ds' ++ t) with ((d :: ds') ++ t).
        rewrite span_digits_app by (first [exact Hd | constructor; assumption]). reflexivity.
      + change (45 =? 45) with true. cbn [orb]. cbv iota beta.
        change (d :: ds' ++ t) with ((d :: ds') ++ t).
        rewrite span_digits_app by (first [exact Hd | constructor; assumption]). reflexivity. }
  assert (Hdex : head_nondigit (ex ++ t)).
  { destruct Hex as [->|(e & sg' & ds & -> & He & _)]; [exact Hd|].
    simpl. destruct He as [->| ->]; reflexivity. }
  (* the fraction part *)
  assert (Efr : match_frac (fr ++ ex ++ t) = match fr with [] => None | _ => Some (fr, ex ++ t) end).
  { destruct Hfr as [->|(ds & -> & Hds & Fds)].
    - destruct Hex as [->|(e & sg' & ds & -> & He & _)].
      + apply stops_frac. exact St.
      + destruct Hne as [Hne|Hne]; [contradiction|]. cbn [app].
        match goal with |- match_frac (_ :: ?r) = None => destruct r end; [reflexivity|].
        simpl. destruct He as [->| ->]; reflexivity.
    - destruct ds as [|d ds']; [contradiction|].
      inversion Fds as [|? ? Hdd Fds']; subst. cbn [app match_frac].
      rewrite Hdd. change (46 =? 46) with true. cbv iota beta.
      rewrite span_digits_app by assumption. reflexivity. }
  assert (Hdfr : head_nondigit (fr ++ ex ++ t)).
  { destruct Hfr as [->|(ds & -> & _)]; [exact Hdex|reflexivity]. }
  (* the integer part *)
  assert (Eip : match_int_digits (ip ++ fr ++ ex ++ t) = Some (ip, fr ++ ex ++ t)).
  { destruct Hip as [->|(c & ds & -> & Hc & Fds)].
    - reflexivity.
    - apply match_int_digits_lead; assumption. }
  assert (Hip0 : match ip with c :: _ => c <> 45 | [] => False end).
  { destruct Hip as [->|(c & ds & -> & Hc & Fds)]; [discriminate|lia]. }
  unfold match_number. rewrite <- !app_assoc.
  destruct Hsg as [->| ->].
  - cbn [app]. destruct ip as [|c ip']; [contradiction|].
    cbn [app] in *. destruct (Z.eqb_spec c 45); [contradiction|].
    rewrite Eip. cbv iota beta.
    rewrite Efr. destruct fr as [|f fr'].
    + cbn [app] in *. rewrite Eex.
      destruct ex as [|x ex']; [destruct Hne; contradiction|]. reflexivity.
    + cbv iota beta. rewrite Eex. destruct ex; reflexivity.
  - cbn [app]. change (45 =? 45) with true. cbv iota beta.
    rewrite Eip. cbv iota beta.
    rewrite Efr. destruct fr as [|f fr'].
    + cbn [app] in *. rewrite Eex.
      destruct ex as [|x ex']; [destruct Hne; contradiction|]. reflexivity.
    + cbv iota beta. rewrite Eex. destruct ex; reflexivity.
Qed.

(** *** [scan_once] on each value of [to_dict] *)

Lemma starts_with_cons_neq (a c : Z) (pre s : pystr) :
  a <> c -> starts_with (a :: pre) (c :: s) = false.
Proof.
  intros H. unfold starts_with. apply bool_decide_eq_false_2. cbn. congruence.
Qed.

Lemma starts_with_cons2_neq (a b c d : Z) (pre s : pystr) :
  b <> d -> starts_with (a :: b :: pre) (c :: d :: s) = false.
Proof.
  intros H. unfold starts_with. apply bool_decide_eq_false_2. cbn. congruence.
Qed.

Lemma scan_once_number (fs : pystr -> float) (fuel : nat) (s : pystr) :
  number_head s -> scan_once fs (S fuel) s = match_number fs s.
Proof.
  destruct s as [|c r]; [contradiction|]. intros Hn.
  assert (Hc : (48 <= c <= 57) \/ c = 45).
  { destruct Hn as [Hd|[-> _]]; [|right; reflexivity].
    left. unfold is_digit in Hd. apply andb_true_iff in Hd as [H1 H2].
    apply Z.leb_le in H1, H2. lia. }
  cbn [scan_once].
  destruct (Z.eqb_spec c QUOTE); [unfold QUOTE in *; lia|].
  destruct (Z.eqb_spec c 123); [lia|].
  destruct (Z.eqb_spec c 91); [lia|].
  change (u "null") with [110; 117; 108; 108]. change (u "true") with [116; 114; 117; 101].
  change (u "false") with [102; 97; 108; 115; 101]. change (u "NaN") with [78; 97; 78].
  change (u "Infinity") with [73; 110; 102; 105; 110; 105; 116; 121].
  change (u "-Infinity") with [45; 73; 110; 102; 105; 110; 105; 116; 121].
  rewrite (starts_with_cons_neq 110), (starts_with_cons_neq 116), (starts_with_cons_neq 102),
    (starts_with_cons_neq 78), (starts_with_cons_neq 73) by lia.
  cbv iota beta.
  destruct Hn as [Hd|[-> Hr]].
  - unfold is_digit in Hd. apply andb_true_iff in Hd as [H1 H2].
    apply Z.leb_le in H1, H2.
    rewrite starts_with_cons_neq by lia. reflexivity.
  - destruct r as [|d r]; [contradiction|].
    rewrite starts_with_cons2_neq; [reflexivity|].
    unfold is_digit in Hr. apply andb_true_iff in Hr as [H1 H2].
    apply Z.leb_le in H1, H2. lia.
Qed.

Lemma skip_ws_ws (ws s : pystr) :
  Forall (fun c => is_ws c = true) ws -> skip_ws (ws ++ s) = skip_ws s.
Proof. intros F. induction F as [|c ws Hc F IH]; [reflexivity|]. simpl. rewrite Hc. exact IH. Qed.

Lemma skip_ws_nonws (e s : pystr) : nonws_head e -> skip_ws (e ++ s) = e ++ s.
Proof. destruct e as [|c e]; [contradiction|]. simpl. intros H. rewrite H. reflexivity. Qed.

Lemma newline_indent_ws (n : nat) : Forall (fun c => is_ws c = true) (newline_indent n).
Proof.
  unfold newline_indent. constructor; [reflexivity|].
  induction (2 * n)%nat as [|k IH]; simpl; constructor; [reflexivity|exact IH].
Qed.

Lemma scans_str (fs : pystr -> float) (s : pystr) :
  valid_str s = true -> scans fs (encode_basestring_ascii s) (PStr s) 0.
Proof. intros V fuel t _ _. apply scan_once_str. exact V. Qed.

Lemma int_repr_head (z : Z) (t : pystr) : number_head (int_repr z ++ t).
Proof.
  unfold int_repr. destruct z as [|p|p]; cbn [Z.to_int].
  - left. reflexivity.
  - destruct (to_uint_lead p) as (c & ds & E & Hc). rewrite E. simpl. left.
    unfold is_digit. apply andb_true_iff. split; apply Z.leb_le; lia.
  - destruct (to_uint_lead p) as (c & ds & E & Hc). rewrite E. simpl. right. split; [reflexivity|].
    unfold is_digit. apply andb_true_iff. split; apply Z.leb_le; lia.
Qed.

Lemma scans_int (fs : pystr -> float) (z : Z) :
  (int_str_digits z <= int_max_str_digits)%nat -> scans fs (int_repr z) (PInt z) 0.
Proof.
  intros Hz fuel t _ St. rewrite scan_once_number by apply int_repr_head.
  rewrite match_number_int by exact St.
  apply Nat.ltb_ge in Hz. rewrite Hz. reflexivity.
Qed.

Lemma float_literal_head (s t : pystr) : float_literal s -> number_head (s ++ t).
Proof.
  intros (sg & ip & fr & ex & -> & Hsg & Hip & _).
  assert (Hd : exists c ip', ip = c :: ip' /\ is_digit c = true).
  { destruct Hip as [->|(c & ds & -> & Hc & _)]; eexists _, _; split; try reflexivity.
    unfold is_digit. apply andb_true_iff. split; apply Z.leb_le; lia. }
  destruct Hd as (c & ip' & -> & Hc).
  destruct Hsg as [->| ->]; simpl; [left; exact Hc|right; split; [reflexivity|exact Hc]].
Qed.

Lemma scans_float (fs : pystr -> float) (s : pystr) :
  float_literal s -> scans fs s (PFloat (fs s)) 0.
Proof.
  intros L fuel t _ St. rewrite scan_once_number by (apply float_literal_head; exact L).
  apply match_number_float; assumption.
Qed.

Lemma scans_null (fs : pystr -> float) : scans fs (u "null") PNone 0.
Proof.
  intros fuel t _ _. cbn. unfold starts_with. rewrite bool_decide_eq_true_2; reflexivity.
Qed.

(** *** Arrays and objects as laid out by [indent=2] *)

Lemma parse_array_items_S (fs : pystr -> float) (fuel : nat) (s : pystr) (acc : list pyobj) :
  parse_array_items fs (S fuel) s acc =
  match scan_once fs fuel s with
  | inl e => inl e
  | inr (v, r1) =>
      let acc' := acc ++ [v] in
      match skip_ws r1 with
      | c :: r2 =>
          if c =? 93 then inr (PList acc', r2)
          else if c =? 44 then parse_array_items fs fuel (skip_ws r2) acc'
          else inl DecodeError
      | [] => inl DecodeError
      end
  end.
Proof. reflexivity. Qed.

Lemma parse_array_strs (fs : pystr -> float) (ms : list pystr) (acc : list pyobj) (fuel : nat) (t : pystr) :
  ms <> [] -> Forall (fun m => valid_str m = true) ms -> (length ms < fuel)%nat ->
  parse_array_items fs fuel
    (join_with (44 :: newline_indent 2) (map encode_basestring_ascii ms)
       ++ newline_indent 1 ++ 93 :: t) acc
  = inr (PList (acc ++ map PStr ms), t).
Proof.
  revert acc fuel. induction ms as [|m ms IH]; intros acc fuel NE F Hf; [congruence|].
  inversion F as [|? ? Vm F']; subst.
  destruct fuel as [|fuel]; [simpl in Hf; lia|].
  destruct fuel as [|fuel]; [simpl in Hf; lia|].
  destruct ms as [|m2 ms].
  - cbn [map join_with]. rewrite parse_array_items_S.
    rewrite scan_once_str by exact Vm.
    rewrite skip_ws_ws by apply newline_indent_ws. reflexivity.
  - change (join_with (44 :: newline_indent 2) (map encode_basestring_ascii (m :: m2 :: ms)))
      with (encode_basestring_ascii m ++ (44 :: newline_indent 2)
              ++ join_with (44 :: newline_indent 2) (map encode_basestring_ascii (m2 :: ms))).
    rewrite parse_array_items_S, <- !app_assoc.
    rewrite scan_once_str by exact Vm. cbv zeta.
    rewrite (skip_ws_nonws (44 :: newline_indent 2)) by reflexivity.
    cbn [app]. change (44 =? 93) with false. change (44 =? 44) with true. cbv iota beta.
    rewrite skip_ws_ws by apply newline_indent_ws.
    rewrite skip_ws_nonws.
    2:{ cbn [map join_with]. destruct ms; reflexivity. }
    rewrite IH; [|discriminate|exact F'|simpl in *; lia].
    rewrite <- app_assoc. reflexivity.
Qed.

Lemma scans_list (fr : float -> pystr) (fs : pystr -> float) (ms : list pystr) :
  Forall (fun m => valid_str m = true) ms ->
  scans fs (iterencode_text fr 1 (PList (map PStr ms))) (PList (map PStr ms)) (S (length ms)).
Proof.
  intros F fuel t Hf _.
  destruct ms as [|m ms']; [reflexivity|].
  set (ms := m :: ms').
  assert (E : iterencode_text fr 1 (PList (map PStr ms))
              = [91] ++ newline_indent 2
                  ++ join_with (44 :: newline_indent 2) (map encode_basestring_ascii ms)
                  ++ newline_indent 1 ++ [93]).
  { cbn [iterencode_text]. unfold ms. cbn [map]. rewrite map_map. reflexivity. }
  rewrite E. rewrite <- !app_assoc. cbn [app scan_once].
  change (91 =? QUOTE) with false. change (91 =? 123) with false. change (91 =? 91) with true.
  cbv iota beta.
  rewrite skip_ws_ws by apply newline_indent_ws.
  assert (H : exists r, join_with (44 :: newline_indent 2) (map encode_basestring_ascii ms)
                        ++ newline_indent 1 ++ 93 :: t = QUOTE :: r).
  { unfold ms. destruct ms'; eexists; reflexivity. }
  destruct H as [r Er]. rewrite Er.
  cbn [skip_ws]. change (is_ws QUOTE) with false. cbv iota beta.
  change (QUOTE =? 93) with false. cbv iota beta.
  rewrite <- Er. rewrite parse_array_strs; [reflexivity|discriminate|exact F|simpl in *; lia].
Qed.

Lemma parse_object_items_S (fs : pystr -> float) (fuel : nat) (s : pystr)
    (acc : list (pystr * pyobj)) :
  parse_object_items fs (S fuel) s acc =
  match s with
  | c :: s1 =>
      if c =? QUOTE then
        match scanstring s1 with
        | None => inl DecodeError
        | Some (k, r1) =>
            match skip_ws r1 with
            | c2 :: r2 =>
                if c2 =? 58 then
                  match scan_once fs fuel (skip_ws r2) with
                  | inl e => inl e
                  | inr (v, r3) =>
                      let acc' := dict_setitem k v acc in
                      match skip_ws r3 with
                      | c3 :: r4 =>
                          if c3 =? 125 then inr (PDict acc', r4)
                          else if c3 =? 44 then parse_object_items fs fuel (skip_ws r4) acc'
                          else inl DecodeError
                      | [] => inl DecodeError
                      end
                  end
                else inl DecodeError
            | [] => inl DecodeError
            end
        end
      else inl DecodeError
  | [] => inl DecodeError
  end.
Proof. reflexivity. Qed.

Lemma dict_setitem_fresh (k : pystr) (v : pyobj) (acc : list (pystr * pyobj)) :
  k ∉ map fst acc -> dict_setitem k v acc = acc ++ [(k, v)].
Proof.
  induction acc as [|[k' v'] acc IH]; intros Hk; [reflexivity|].
  simpl in *. destruct (decide (k = k')) as [->|Hne].
  - exfalso. apply Hk. left.
  - rewrite IH; [reflexivity|]. intros Hin. apply Hk. right. exact Hin.
Qed.

Lemma parse_object_all (fr : float -> pystr) (fs : pystr -> float) (n : nat)
    (items acc : list (pystr * pyobj)) (fuel : nat) (t : pystr) :
  items <> [] ->
  Forall (fun kv => valid_str kv.1 = true /\ scans fs (iterencode_text fr 1 kv.2) kv.2 n
                    /\ nonws_head (iterencode_text fr 1 kv.2)) items ->
  NoDup (map fst (acc ++ items)) ->
  (length items + n < fuel)%nat ->
  parse_object_items fs fuel
    (join_with (44 :: newline_indent 1) (map (item_enc fr) items)
       ++ newline_indent 0 ++ 125 :: t) acc
  = inr (PDict (acc ++ items), t).
Proof.
  revert acc fuel. induction items as [|[k v] items IH]; intros acc fuel NE F ND Hf; [congruence|].
  inversion F as [|? ? (Vk & Sv & Nv) F']; subst. cbn [fst snd] in Vk, Sv, Nv.
  destruct fuel as [|fuel]; [simpl in Hf; lia|].
  destruct fuel as [|fuel]; [simpl in Hf; lia|].
  assert (Fresh : k ∉ map fst acc).
  { rewrite map_app in ND. cbn [map fst] in ND. apply NoDup_app in ND as (_ & D & _).
    intros Hin. apply (D k Hin). left. }
  assert (Hn : (n <= fuel)%nat) by (simpl in Hf; lia).
  rewrite parse_object_items_S.
  set (rest := match items with
               | [] => newline_indent 0 ++ 125 :: t
               | _ :: _ => (44 :: newline_indent 1)
                             ++ join_with (44 :: newline_indent 1) (map (item_enc fr) items)
                             ++ newline_indent 0 ++ 125 :: t
               end).
  assert (Es : join_with (44 :: newline_indent 1) (map (item_enc fr) ((k, v) :: items))
                 ++ newline_indent 0 ++ 125 :: t
               = QUOTE :: flat_map escape_char k ++ QUOTE :: 58 :: 32 :: iterencode_text fr 1 v ++ rest).
  { unfold rest. destruct items; cbn [map join_with]; unfold item_enc, encode_basestring_ascii;
      cbn [fst snd]; rewrite <- !app_assoc; reflexivity. }
  rewrite Es. change (QUOTE =? QUOTE) with true. cbv iota beta.
  rewrite scanstring_escaped by exact Vk. cbv iota beta.
  cbn [skip_ws]. change (is_ws 58) with false. cbv iota beta.
  change (58 =? 58) with true. cbv iota beta.
  cbn [skip_ws]. change (is_ws 32) with true. cbv iota beta.
  rewrite skip_ws_nonws by exact Nv.
  assert (Srest : stops rest).
  { unfold rest. destruct items; simpl; repeat split; discriminate. }
  rewrite (Sv fuel rest Hn Srest). cbv zeta.
  rewrite dict_setitem_fresh by exact Fresh.
  destruct items as [|kv2 items'].
  - unfold rest. rewrite skip_ws_ws by apply newline_indent_ws. reflexivity.
  - unfold rest. rewrite (skip_ws_nonws (44 :: newline_indent 1)) by reflexivity.
    cbn [app]. change (44 =? 125) with false. change (44 =? 44) with true. cbv iota beta.
    rewrite skip_ws_ws by apply newline_indent_ws.
    rewrite skip_ws_nonws.
    2:{ destruct kv2. cbn [map join_with]. destruct items'; reflexivity. }
    rewrite IH; [| discriminate | exact F' | rewrite <- app_assoc; exact ND | simpl in *; lia].
    rewrite <- app_assoc. reflexivity.
Qed.

Lemma scans_mono (fs : pystr -> float) (e : pystr) (v : pyobj) (n m : nat) :
  scans fs e v n -> (n <= m)%nat -> scans fs e v m.
Proof. intros S Hnm fuel t Hf St. apply S; [lia|exact St]. Qed.

Lemma floatstr_finite (fr : float -> pystr) (f : float) :
  finite_float f = true -> floatstr fr f = fr f.
Proof.
  unfold finite_float, floatstr. intros H.
  destruct (PrimFloat.is_nan f); [discriminate|].
  destruct (f =? PrimFloat.infinity)%float; [discriminate|].
  destruct (f =? PrimFloat.neg_infinity)%float; [discriminate|]. reflexivity.
Qed.

Lemma number_head_nonws (s : pystr) : number_head s -> nonws_head s.
Proof.
  destruct s as [|c s]; [contradiction|]. intros [Hd|[-> _]]; [|reflexivity].
  unfold is_digit in Hd. apply andb_true_iff in Hd as [H1 H2]. apply Z.leb_le in H1, H2.
  simpl. unfold is_ws.
  destruct (Z.eqb_spec c 32); [lia|]. destruct (Z.eqb_spec c 9); [lia|].
  destruct (Z.eqb_spec c 10); [lia|]. destruct (Z.eqb_spec c 13); [lia|]. reflexivity.
Qed.

Lemma join_with_length (sep : pystr) (xs : list pystr) :
  Forall (fun x => x <> []) xs -> (length xs <= length (join_with sep xs))%nat.
Proof.
  induction 1 as [|x xs Hx F IH]; [simpl; lia|].
  destruct x as [|c x]; [congruence|].
  destruct xs as [|y ys]; [simpl; lia|].
  change (join_with sep ((c :: x) :: y :: ys)) with ((c :: x) ++ sep ++ join_with sep (y :: ys)).
  rewrite !length_app. simpl in *. lia.
Qed.

Lemma list_enc_length (fr : float -> pystr) (ms : list pystr) :
  (length ms <= length (iterencode_text fr 1 (PList (map PStr ms))))%nat.
Proof.
  destruct ms as [|m ms']; [simpl; lia|].
  cbn [iterencode_text map]. rewrite !length_app.
  pose proof (join_with_length (44 :: newline_indent 2)
                (map (iterencode_text fr 2) (PStr m :: map PStr ms'))) as J.
  rewrite length_map in J. cbn [length] in *.
  assert (F : Forall (fun x => x <> []) (map (iterencode_text fr 2) (PStr m :: map PStr ms'))).
  { change (PStr m :: map PStr ms') with (map PStr (m :: ms')).
    induction (m :: ms') as [|y ys IH]; simpl; constructor; [discriminate|exact IH]. }
  specialize (J F). cbn [iterencode_text map length] in J. rewrite !length_map in J. lia.
Qed.

(** *** [loads] after [dumps], then [from_dict] after [to_dict] *)

(** *** [json.dumps] raises exactly on an int too long to write *)

Lemma pyobj_deep_ind (P : pyobj -> Prop)
    (Hnone : P PNone) (Hbool : forall b, P (PBool b)) (Hint : forall z, P (PInt z))
    (Hfloat : forall f, P (PFloat f)) (Hstr : forall s, P (PStr s))
    (Hlist : forall l, Forall P l -> P (PList l))
    (Hdict : forall items, Forall (fun kv => P kv.2) items -> P (PDict items)) :
  forall o, P o.
Proof.
  fix IH 1. intros [| b | z | f | s | l | items].
  - exact Hnone.
  - apply Hbool.
  - apply Hint.
  - apply Hfloat.
  - apply Hstr.
  - apply Hlist.
    exact ((fix go (l : list pyobj) : Forall P l :=
              match l with
              | [] => List.Forall_nil P
              | x :: l' => List.Forall_cons P x l' (IH x) (go l')
              end) l).
  - apply Hdict.
    exact ((fix go (items : list (pystr * pyobj)) : Forall (fun kv => P kv.2) items :=
              match items with
              | [] => List.Forall_nil _
              | (k, v) :: r => List.Forall_cons (fun kv => P kv.2) (k, v) r (IH v) (go r)
              end) items).
Qed.

Lemma all_chunks_map {A} (f : A -> json_exn + pystr) (g : A -> pystr) (b : A -> bool)
    (l : list A) :
  Forall (fun x => f x = if b x then inr (g x) else inl IntMaxStrDigits) l ->
  all_chunks (map f l) = if forallb b l then inr (map g l) else inl IntMaxStrDigits.
Proof.
  induction 1 as [|x l Hx F IH]; [reflexivity|].
  cbn [map all_chunks forallb]. rewrite Hx. destruct (b x); cbn [andb]; [|reflexivity].
  rewrite IH. destruct (forallb b l); reflexivity.
Qed.

Lemma iterencode_spec (fr : float -> pystr) (o : pyobj) : forall level,
  iterencode fr level o
  = if ints_fit o then inr (iterencode_text fr level o) else inl IntMaxStrDigits.
Proof.
  induction o as [| b | z | f | s | l IH | items IH] using pyobj_deep_ind; intros level.
  - reflexivity.
  - destruct b; reflexivity.
  - cbn [iterencode iterencode_text ints_fit]. unfold long_to_decimal_string.
    destruct (Nat.ltb_spec int_max_str_digits (int_str_digits z));
      destruct (Nat.leb_spec (int_str_digits z) int_max_str_digits); try lia; reflexivity.
  - reflexivity.
  - reflexivity.
  - destruct l as [|x l']; [reflexivity|].
    cbn [iterencode iterencode_text ints_fit].
    rewrite (all_chunks_map (iterencode fr (S level)) (iterencode_text fr (S level)) ints_fit).
    + destruct (forallb ints_fit (x :: l')); reflexivity.
    + eapply Forall_impl; [exact IH|]. intros o Ho. apply Ho.
  - destruct items as [|[k v] items']; [reflexivity|].
    cbn [iterencode iterencode_text ints_fit].
    rewrite (all_chunks_map _
               (fun '(k, v) => encode_basestring_ascii k ++ u ": " ++ iterencode_text fr (S level) v)
               (fun '(_, v) => ints_fit v)).
    + destruct (forallb (fun '(_, v) => ints_fit v) ((k, v) :: items')); reflexivity.
    + eapply Forall_impl; [exact IH|]. intros [k' v'] Ho. cbn [snd] in Ho.
      rewrite (Ho (S level)). destruct (ints_fit v'); reflexivity.
Qed.

Section RoundTrip.
Variable float_repr : float -> pystr.
Variable float_of_str : pystr -> float.

Lemma loads_dumps_payload (p : EventPayload) :
  valid_str (prompt p) = true ->
  forallb valid_str (models p) = true ->
  match request_id p with Some r => valid_str r | None => true end = true ->
  finite_float (temperature p) = true ->
  float_literal (float_repr (temperature p)) ->
  float_of_str (float_repr (temperature p)) = temperature p ->
  (int_str_digits (max_tokens p) <= int_max_str_digits)%nat ->
  loads float_of_str (iterencode_text float_repr 0 (to_dict p)) = inr (to_dict p).
Proof.
  intros Vp Vms Vr Ft Lt Rt Dt.
  assert (Fms : Forall (fun m => valid_str m = true) (models p)).
  { clear -Vms. induction (models p) as [|m ms IH]; [constructor|].
    simpl in Vms. apply andb_true_iff in Vms as [V1 V2]. constructor; [exact V1|exact (IH V2)]. }
  set (items := [(u "prompt", PStr (prompt p));
                 (u "models", PList (map PStr (models p)));
                 (u "max_tokens", PInt (max_tokens p));
                 (u "temperature", PFloat (temperature p));
                 (u "request_id",
                    match request_id p with Some r => PStr r | None => PNone end)]).
  change (to_dict p) with (PDict items).
  set (body := join_with (44 :: newline_indent 1) (map (item_enc float_repr) items)).
  assert (E : iterencode_text float_repr 0 (PDict items)
              = 123 :: newline_indent 1 ++ body ++ newline_indent 0 ++ [125]).
  { reflexivity. }
  assert (Eb : exists r, body ++ newline_indent 0 ++ [125] = QUOTE :: r).
  { eexists. reflexivity. }
  destruct Eb as [r Er].
  assert (Len : (length items + S (length (models p)) < length (iterencode_text float_repr 0 (PDict items)))%nat).
  { rewrite E. unfold body, items. cbn [map join_with length].
    rewrite !length_app. unfold item_enc at 2. rewrite !length_app.
    pose proof (list_enc_length float_repr (models p)) as LL. cbn [snd].
    remember (iterencode_text float_repr 1 (PList (map PStr (models p)))) as le.
    clear Heqle. simpl. lia. }
  unfold loads. rewrite E.
  remember (length (123 :: newline_indent 1 ++ body ++ newline_indent 0 ++ [125])) as L eqn:HL.
  rewrite E in Len. rewrite <- HL in Len.
  cbv iota beta. cbn [skip_ws]. change (is_ws 123) with false. cbv iota beta.
  cbn [scan_once]. change (123 =? QUOTE) with false. change (123 =? 123) with true.
  cbv iota beta.
  rewrite skip_ws_ws by apply newline_indent_ws.
  rewrite Er. cbn [skip_ws]. change (is_ws QUOTE) with false. cbv iota beta.
  change (QUOTE =? 125) with false. cbv iota beta. rewrite <- Er.
  unfold body.
  rewrite (parse_object_all float_repr float_of_str (S (length (models p))) items [] L []).
  - reflexivity.
  - discriminate.
  - unfold items.
    constructor.
    { split; [reflexivity|split]; [|reflexivity].
      apply (scans_mono _ _ _ 0); [apply scans_str; exact Vp|lia]. }
    constructor.
    { split; [reflexivity|split]; [apply scans_list; exact Fms|].
      cbn [snd]. destruct (models p); reflexivity. }
    constructor.
    { split; [reflexivity|split]; cbn [snd iterencode_text].
      - apply (scans_mono _ _ _ 0); [apply scans_int; exact Dt|lia].
      - apply number_head_nonws. rewrite <- (app_nil_r (int_repr _)). apply int_repr_head. }
    constructor.
    { split; [reflexivity|split]; cbn [snd iterencode_text]; rewrite floatstr_finite by exact Ft.
      - rewrite <- Rt at 2. apply (scans_mono _ _ _ 0); [apply scans_float; exact Lt|lia].
      - apply number_head_nonws. rewrite <- (app_nil_r (float_repr _)).
        apply float_literal_head. exact Lt. }
    constructor; [|constructor].
    { split; [reflexivity|split]; cbn [snd];
        destruct (request_id p) as [rid|]; cbn [iterencode_text]; try reflexivity.
      - apply (scans_mono _ _ _ 0); [apply scans_str; exact Vr|lia].
      - apply (scans_mono _ _ _ 0); [apply scans_null|lia]. }
  - apply (bool_decide_unpack _). vm_compute. reflexivity.
  - simpl in Len |- *. lia.
Qed.

End RoundTrip.

Lemma from_dict_to_dict (p : EventPayload) : from_dict (to_dict p) = inr p.
Proof.
  destruct p as [pr ms mt t r]. unfold to_dict. cbn [prompt models max_tokens temperature request_id].
  assert (E : forall vm vr,
    from_dict (PDict [(u "prompt", PStr pr); (u "models", vm); (u "max_tokens", PInt mt);
                      (u "temperature", PFloat t); (u "request_id", vr)])
    = match as_str_list vm, as_opt_str vr with
      | Some ms', Some r' => inr (mkEventPayload pr ms' mt t r')
      | _, _ => inl Untyped
      end).
  { intros vm vr. unfold from_dict. cbv -[as_str_list as_opt_str].
    destruct (as_str_list vm), (as_opt_str vr); reflexivity. }
  rewrite E. unfold as_str_list. rewrite mapM_as_str.
  destruct r; reflexivity.
Qed.

Lemma ints_fit_to_dict (p : EventPayload) :
  ints_fit (to_dict p) = Nat.leb (int_str_digits (max_tokens p)) int_max_str_digits.
Proof.
  destruct p as [pr ms mt t r]. unfold to_dict.
  cbn [ints_fit forallb prompt models max_tokens temperature request_id].
  assert (M : forallb ints_fit (map PStr ms) = true).
  { induction ms as [|m ms IH]; [reflexivity|exact IH]. }
  rewrite M. destruct r; cbn [andb ints_fit]; rewrite ?andb_true_r; reflexivity.
Qed.

(** C7 (amended): for every request whose strings ([prompt], every
    model key, [request_id]) hold code points of [0..0x10FFFF] with no
    high surrogate directly before a low one, and whose temperature is
    finite, printed by [float_repr] as a float literal that
    [float_of_str] reads back to the same float: when [max_tokens] has
    at most 4300 digits, [to_json] returns a text that [from_json]
    reads back as the same request; when it has more, [to_json] raises
    [ValueError].  Neither a non-empty model list nor a positive
    [max_tokens] is needed. *)
Theorem to_json_from_json_roundtrip (float_repr : float -> pystr) (float_of_str : pystr -> float)
    (p : EventPayload) :
  valid_str (prompt p) = true ->
  forallb valid_str (models p) = true ->
  match request_id p with Some r => valid_str r | None => true end = true ->
  finite_float (temperature p) = true ->
  float_literal (float_repr (temperature p)) ->
  float_of_str (float_repr (temperature p)) = temperature p ->
  ((int_str_digits (max_tokens p) <= int_max_str_digits)%nat ->
     exists s, to_json float_repr p = inr s /\ from_json float_of_str s = inr p)
  /\ ((int_max_str_digits < int_str_digits (max_tokens p))%nat ->
       to_json float_repr p = inl IntMaxStrDigits).
Proof.
  intros Vp Vms Vr Ft Lt Rt. unfold to_json, dumps.
  rewrite iterencode_spec, ints_fit_to_dict. split.
  - intros Dt. pose proof Dt as Db. apply Nat.leb_le in Db. rewrite Db.
    eexists. split; [reflexivity|].
    unfold from_json. rewrite loads_dumps_payload by assumption. apply from_dict_to_dict.
  - intros Dt. apply Nat.leb_gt in Dt. rewrite Dt. reflexivity.
Qed.

(* ------------------------------------------------------------------ *)
(** ** More of the source *)

Lemma lookup_item_in {A} (key : pystr) (items : list (pystr * A)) (v : A) :
  lookup_item key items = Some v -> (key, v) ∈ items.
Proof.
  induction items as [|[k w] items IH]; simpl; [discriminate|].
  case_decide as Hk.
  - intros [= <-]. subst. apply elem_of_cons. left. reflexivity.
  - intros H. apply elem_of_cons. right. auto.
Qed.

(** X1: [list_available_models] first prints the header line
    ["Available Models:"] and then one line per registered model: as
    many distinct lines as [AVAILABLE_MODELS] has keys and, for each key,
    the line ["  key: name"] with the key's display name from
    [MODEL_NAMES]. *)
Theorem list_available_models_registry :
  hd_error list_available_models = Some (u "Available Models:")
  /\ length (tl list_available_models) = size AVAILABLE_MODELS
  /\ NoDup (tl list_available_models)
  /\ forall key model_id, AVAILABLE_MODELS !! key = Some model_id ->
       MODEL_NAMES !! key = Some (get_model_name key)
       /\ (u "  " ++ key ++ u ": " ++ get_model_name key) ∈ tl list_available_models.
Proof.
  split; [reflexivity|]. split; [vm_compute; reflexivity|].
  split; [apply (bool_decide_unpack _); vm_compute; reflexivity|].
  intros key model_id H. unfold AVAILABLE_MODELS in H. apply elem_of_list_to_map_2 in H.
  repeat (apply elem_of_cons in H as [H|H];
    [injection H as E1 E2; subst;
     split; [vm_compute; reflexivity|apply (bool_decide_unpack _); vm_compute; reflexivity]|]).
  apply elem_of_nil in H. contradiction.
Qed.

Lemma example_payload_facts (strategy pr : pystr) (payload : EventPayload) :
  get_example_payload strategy pr = inr payload ->
  prompt payload = pr /\ request_id payload = None /\ max_tokens payload = 4000
  /\ temperature payload = 0.7%float /\ models payload <> []
  /\ Forall (fun k => is_Some (AVAILABLE_MODELS !! k)) (models payload)
  /\ exists example, lookup_item strategy EXAMPLE_PAYLOADS = Some example
                     /\ models payload = models example.
Proof.
  intros H. unfold get_example_payload in H.
  destruct (lookup_item strategy EXAMPLE_PAYLOADS) as [ex|] eqn:E; [|discriminate].
  injection H as <-. pose proof (lookup_item_in _ _ _ E) as Hin.
  cbn [prompt request_id max_tokens temperature models].
  assert (Hex : max_tokens ex = 4000 /\ temperature ex = 0.7%float /\ models ex <> []
                /\ Forall (fun k => is_Some (AVAILABLE_MODELS !! k)) (models ex)).
  { unfold EXAMPLE_PAYLOADS in Hin.
    repeat (apply elem_of_cons in Hin as [Hin|Hin];
      [injection Hin as _ Eex; subst ex; split; [reflexivity|]; split; [reflexivity|];
       split; [discriminate|]; apply (bool_decide_unpack _); vm_compute; reflexivity|]).
    apply elem_of_nil in Hin. contradiction. }
  destruct Hex as (H1 & H2 & H3 & H4).
  repeat split; try assumption. exists ex. split; [reflexivity|reflexivity].
Qed.

(** X2: A payload built by [get_example_payload] keeps the given prompt, has
    no request id, [max_tokens = 4000] and [temperature = 0.7], and its
    models are the non-empty list of the chosen example, all of them keys of
    [AVAILABLE_MODELS]. *)
Theorem get_example_payload_result (strategy pr : pystr) (payload : EventPayload) :
  get_example_payload strategy pr = inr payload ->
  prompt payload = pr /\ request_id payload = None /\ max_tokens payload = 4000
  /\ temperature payload = 0.7%float /\ models payload <> []
  /\ Forall (fun k => is_Some (AVAILABLE_MODELS !! k)) (models payload)
  /\ exists example, lookup_item strategy EXAMPLE_PAYLOADS = Some example
                     /\ models payload = models example.
Proof. apply example_payload_facts. Qed.

Lemma known_models_process (completion : list call -> call -> completion_result)
    (payload : EventPayload) (h : list call) :
  Forall (fun k => is_Some (AVAILABLE_MODELS !! k)) (models payload) ->
  exists response, fst (process completion payload h) = inr response.
Proof.
  intros Hf. unfold process.
  destruct (process_loop_outcome completion payload (models payload) [] h)
    as [H1|(k & _ & Hk & Hn)]; [exact H1|].
  exfalso. rewrite Forall_forall in Hf. destruct (Hf k Hk) as [x Hx]. congruence.
Qed.

(** X3: [process] never raises on a payload built by [get_example_payload]:
    it returns a response, whatever the adapter does. *)
Theorem process_example_payload_returns (completion : list call -> call -> completion_result)
    (strategy pr : pystr) (payload : EventPayload) (h : list call) :
  get_example_payload strategy pr = inr payload ->
  exists response, fst (process completion payload h) = inr response.
Proof.
  intros H. apply known_models_process.
  destruct (example_payload_facts _ _ _ H) as (_ & _ & _ & _ & _ & Hf & _). exact Hf.
Qed.

(** X4: the dispatch of [main] on its command line and the processing of
    the chosen payload never raise, whatever the arguments and the adapter:
    each branch ends in an outcome (the printing of the results is not
    modelled). *)
Theorem main_returns (completion : list call -> call -> completion_result)
    (argv : list pystr) (h : list call) :
  exists outcome, fst (main completion argv h) = inr outcome.
Proof.
  assert (R : forall st strategy pr,
    match get_example_payload strategy pr with inr _ => True | inl _ => False end ->
    exists outcome, fst (run_payload completion st (get_example_payload strategy pr) h) = inr outcome).
  { intros st strategy pr Hs. destruct (get_example_payload strategy pr) as [e|payload] eqn:E;
      [contradiction|].
    destruct (example_payload_facts _ _ _ E) as (_ & _ & _ & _ & _ & Hf & _).
    destruct (known_models_process completion payload h Hf) as [r Hr].
    unfold run_payload. destruct (process completion payload h) as [[e|r'] h'].
    - discriminate.
    - eexists. reflexivity. }
  unfold main. destruct argv as [|prog [|arg rest]]; try (apply R; exact I).
  destruct (decide (arg = u "models")); [eexists; reflexivity|].
  destruct (decide (arg = u "strategies")); [eexists; reflexivity|].
  destruct (lookup_item arg EXAMPLE_PAYLOADS) as [ex|] eqn:L; [|eexists; reflexivity].
  apply R. unfold get_example_payload. rewrite L. exact I.
Qed.

Lemma dict_get_head (k : pystr) (v : pyobj) (rest : list (pystr * pyobj)) :
  dict_get k ((k, v) :: rest) = Some v.
Proof. simpl. rewrite decide_True by reflexivity. reflexivity. Qed.

Lemma dict_get_skip (k k' : pystr) (v : pyobj) (rest : list (pystr * pyobj)) :
  k <> k' -> dict_get k ((k', v) :: rest) = dict_get k rest.
Proof. intros H. simpl. rewrite decide_False by exact H. reflexivity. Qed.

(** X5: A payload returned by [create_payload] has exactly the prompt and
    the models passed to it. *)
Theorem create_payload_keeps (pr : pystr) (ms : list pystr) (kwargs : list (pystr * pyobj))
    (p : EventPayload) :
  create_payload pr ms kwargs = inr p -> prompt p = pr /\ models p = ms.
Proof.
  unfold create_payload. destruct (existsb _ kwargs); [discriminate|].
  unfold from_dict. destruct (forallb _ _); [|discriminate].
  rewrite dict_get_head, dict_get_skip, dict_get_head by discriminate.
  cbn [typed as_str as_str_list]. rewrite mapM_as_str. cbn [typed].
  repeat match goal with |- context [typed ?x] => destruct (typed x) end;
    try discriminate.
  intros [= <-]. split; reflexivity.
Qed.

Lemma forallb_false_elem {A} (f : A -> bool) (l : list A) (x : A) :
  x ∈ l -> f x = false -> forallb f l = false.
Proof.
  induction l as [|y l IH]; intros Hx Hf; [apply elem_of_nil in Hx; contradiction|].
  simpl. apply elem_of_cons in Hx as [->|Hx]; [rewrite Hf; reflexivity|].
  rewrite (IH Hx Hf). apply andb_false_r.
Qed.

Lemma existsb_true_elem {A} (f : A -> bool) (l : list A) (x : A) :
  x ∈ l -> f x = true -> existsb f l = true.
Proof.
  induction l as [|y l IH]; intros Hx Hf; [apply elem_of_nil in Hx; contradiction|].
  simpl. apply elem_of_cons in Hx as [->|Hx]; [rewrite Hf; reflexivity|].
  rewrite (IH Hx Hf). apply orb_true_r.
Qed.

(** X6: [create_payload] raises [TypeError] when a keyword argument repeats
    [prompt] or [models], or is not a field of [EventPayload]. *)
Theorem create_payload_type_error (pr : pystr) (ms : list pystr) (kwargs : list (pystr * pyobj))
    (key : pystr) (v : pyobj) :
  (key, v) ∈ kwargs ->
  key = u "prompt" \/ key = u "models" \/ key ∉ payload_fields ->
  create_payload pr ms kwargs = inl TypeError.
Proof.
  intros Hin Hk. unfold create_payload.
  destruct Hk as [->| [->|Hk]].
  - rewrite (existsb_true_elem _ _ _ Hin) by (apply bool_decide_eq_true_2; left; reflexivity).
    reflexivity.
  - rewrite (existsb_true_elem _ _ _ Hin) by (apply bool_decide_eq_true_2; right; reflexivity).
    reflexivity.
  - destruct (existsb _ kwargs); [reflexivity|].
    unfold from_dict.
    rewrite (forallb_false_elem _ _ (key, v)); [reflexivity| |].
    + apply elem_of_cons. right. apply elem_of_cons. right. exact Hin.
    + apply bool_decide_eq_false_2. exact Hk.
Qed.

(** X7: [from_dict] on a dict raises [TypeError] when the dict lacks
    [prompt] or [models], or has a key that is not a field of
    [EventPayload]. *)
Theorem from_dict_type_error (data : pyobj) :
  match data with
  | PDict items =>
      dict_get (u "prompt") items = None \/ dict_get (u "models") items = None
      \/ exists kv, kv ∈ items /\ kv.1 ∉ payload_fields
  | _ => True
  end ->
  from_dict data = inl TypeError.
Proof.
  destruct data as [| | | | | |items]; try reflexivity.
  intros H. unfold from_dict.
  destruct H as [Hp|[Hm|(kv & Hin & Hk)]].
  - destruct (forallb _ items); [|reflexivity]. rewrite Hp. reflexivity.
  - destruct (forallb _ items); [|reflexivity]. rewrite Hm.
    destruct (dict_get (u "prompt") items); reflexivity.
  - rewrite (forallb_false_elem _ _ kv Hin); [reflexivity|].
    apply bool_decide_eq_false_2. exact Hk.
Qed.

(** X8: [from_dict] inverts [to_dict] on every payload. *)
Theorem to_dict_from_dict (p : EventPayload) : from_dict (to_dict p) = inr p.
Proof. apply from_dict_to_dict. Qed.

(** X9: [fallback_models] is the tail of [models], and [primary_model]
    followed by the fallbacks gives back [models]. *)
Theorem fallback_models_tail (p : EventPayload) :
  fallback_models p = tail (models p)
  /\ match primary_model p with Some m => m :: fallback_models p | None => [] end = models p.
Proof.
  unfold fallback_models, primary_model.
  destruct (models p) as [|m [|m' ms]]; split; reflexivity.
Qed.

Lemma setup_fold (environ : gmap pystr pystr) (keys : list pystr) :
  fold_left (fun env '(key, value) =>
               match value with
               | Some v => if bool_decide (v = []) then env else <[key := v]> env
               | None => env
               end) (map (fun key => (key, environ !! key)) keys) environ = environ.
Proof.
  induction keys as [|k keys IH]; [reflexivity|]. simpl.
  destruct (environ !! k) as [v|] eqn:E; [|exact IH].
  destruct (bool_decide (v = [])); [exact IH|]. rewrite insert_id by exact E. exact IH.
Qed.

(** X10: [_setup_api_keys] only writes back values that the environment
    already holds, so it leaves the environment as it was. *)
Theorem _setup_api_keys_unchanged (environ : gmap pystr pystr) :
  _setup_api_keys environ = environ.
Proof. apply setup_fold. Qed.

(** X11: [process] on an empty list of models calls no adapter and returns
    an unsuccessful response with error ["All 0 models failed"] and no
    attempts. *)
Theorem process_no_models (completion : list call -> call -> completion_result)
    (p : EventPayload) (h : list call) :
  models p = [] ->
  process completion p h
  = (inr (mkSimpleResponse false None None None None (Some (u "All 0 models failed"))
            (Some [])), h).
Proof. intros Hm. unfold process. rewrite Hm. simpl. unfold ret. rewrite Hm. reflexivity. Qed.

Lemma process_loop_shape (completion : list call -> call -> completion_result)
    (p : EventPayload) (ms : list pystr) (acc : list attempt) (h : list call)
    (r : SimpleResponse) :
  fst (process_loop completion p ms acc h) = inr r ->
  (success r = true ->
     exists k, model_used r = Some k /\ k ∈ ms /\ is_Some (AVAILABLE_MODELS !! k)
       /\ is_Some (usage r) /\ error r = None
       /\ exists atts, attempts r = Some atts
                       /\ last atts = Some (mkAttempt k (get_model_name k) (u "success") []))
  /\ (success r = false ->
       content r = None /\ model_used r = None /\ cost r = None /\ usage r = None
       /\ error r = Some (u "All " ++ int_repr (Z.of_nat (length (models p)))
                           ++ u " models failed")).
Proof.
  revert acc h. induction ms as [|k ms IH]; intros acc h Hr.
  - simpl in Hr. injection Hr as <-. split; [discriminate|]. intros _. repeat split.
  - destruct (AVAILABLE_MODELS !! k) as [m|] eqn:Hk.
    + set (c := mkCall m (prompt p) (max_tokens p) (temperature p)).
      assert (Hc : call_for p k = Some c) by (unfold call_for; rewrite Hk; reflexivity).
      destruct (completion h c) as [ct us co|e] eqn:He.
      * rewrite (process_loop_step_ok completion p k ms acc h c ct us co Hc He) in Hr.
        injection Hr as <-. split; [|discriminate]. intros _. exists k. cbn [model_used content usage error attempts].
        split; [reflexivity|]. split; [apply elem_of_cons; left; reflexivity|].
        split; [rewrite Hk; eexists; reflexivity|].
        split; [eexists; reflexivity|].
        split; [reflexivity|]. eexists. split; [reflexivity|apply last_snoc].
      * rewrite (process_loop_step_fail completion p k ms acc h c e Hc He) in Hr.
        destruct (IH _ _ Hr) as [H1 H2]. split; [|exact H2].
        intros Hs. destruct (H1 Hs) as (k' & E1 & E2 & E3). exists k'.
        split; [exact E1|]. split; [apply elem_of_cons; right; exact E2|exact E3].
    + rewrite (process_loop_step_unknown completion p k ms acc h Hk) in Hr. discriminate.
Qed.

(** X12: A successful response of [process] names a model of the payload
    that is registered, has usage and no error, and its last attempt is
    that model's success; an unsuccessful one has no content,
    model, cost or usage and the error ["All n models failed"] for the n
    models of the payload. *)
Theorem process_response_shape (completion : list call -> call -> completion_result)
    (p : EventPayload) (h : list call) (r : SimpleResponse) :
  fst (process completion p h) = inr r ->
  (success r = true ->
     exists k, model_used r = Some k /\ k ∈ models p /\ is_Some (AVAILABLE_MODELS !! k)
       /\ is_Some (usage r) /\ error r = None
       /\ exists atts, attempts r = Some atts
                       /\ last atts = Some (mkAttempt k (get_model_name k) (u "success") []))
  /\ (success r = false ->
       content r = None /\ model_used r = None /\ cost r = None /\ usage r = None
       /\ error r = Some (u "All " ++ int_repr (Z.of_nat (length (models p)))
                           ++ u " models failed")).
Proof. apply process_loop_shape. Qed.

Lemma calls_for_args (p : EventPayload) (ks : list pystr) (cs : list call) :
  calls_for p ks = Some cs ->
  Forall (fun c => completion_prompt c = prompt p /\ completion_max_tokens c = max_tokens p
            /\ completion_temperature c = temperature p
            /\ exists k, k ∈ ks /\ AVAILABLE_MODELS !! k = Some (completion_model c)) cs.
Proof.
  revert cs. induction ks as [|k ks IH]; intros cs H.
  - unfold calls_for in H. simpl in H. injection H as <-. constructor.
  - apply calls_for_cons in H as (c & cs' & Hc & Hcs & ->).
    apply call_for_known in Hc as (m & Hm & ->).
    constructor.
    + cbn. split; [reflexivity|]. split; [reflexivity|]. split; [reflexivity|].
      exists k. split; [apply elem_of_cons; left; reflexivity|exact Hm].
    + eapply Forall_impl; [apply IH; exact Hcs|].
      intros c' (A & B & C & (k' & Hk' & Hm')). split; [exact A|]. split; [exact B|].
      split; [exact C|]. exists k'. split; [apply elem_of_cons; right; exact Hk'|exact Hm'].
Qed.

(** X13: Every adapter call made by [process] passes the payload's prompt,
    [max_tokens] and [temperature] and the provider identifier of one of the
    payload's models, and a returned response records one attempt per call. *)
Theorem process_call_arguments (completion : list call -> call -> completion_result)
    (p : EventPayload) (h : list call) :
  exists cs, snd (process completion p h) = h ++ cs
    /\ Forall (fun c => completion_prompt c = prompt p /\ completion_max_tokens c = max_tokens p
              /\ completion_temperature c = temperature p
              /\ exists k, k ∈ models p /\ AVAILABLE_MODELS !! k = Some (completion_model c)) cs
    /\ forall r, fst (process completion p h) = inr r ->
         exists atts, attempts r = Some atts /\ length atts = length cs.
Proof.
  destruct (process_loop_forward completion p (models p) [] h)
    as (n & cs & Hn & Hcs & Htr & Hatt).
  exists cs. split; [exact Htr|]. split.
  - eapply Forall_impl; [apply (calls_for_args p _ cs Hcs)|].
    intros c (A & B & C & (k & Hk & Hm)). split; [exact A|]. split; [exact B|].
    split; [exact C|]. exists k. split; [|exact Hm].
    apply elem_of_take in Hk as (i & Hi & _). eapply list_elem_of_lookup_2. exact Hi.
  - intros r Hr. destruct (Hatt r Hr) as (atts & Ha & Hmap & _). exists atts.
    split; [exact Ha|]. rewrite (calls_for_length p _ cs Hcs), <- Hmap, length_map.
    reflexivity.
Qed.

Lemma hexdigit_printable (n : Z) : 32 <= hexdigit (Z.land n 15) <= 126.
Proof.
  change 15 with (Z.ones 4). rewrite Z.land_ones by lia.
  pose proof (Z.mod_pos_bound n (2 ^ 4)) as B. change (2 ^ 4) with 16 in *.
  unfold hexdigit. destruct (Z.ltb_spec (n mod 16) 10); lia.
Qed.

Lemma hex4_printable (n : Z) : Forall (fun c => 32 <= c <= 126) (hex4 n).
Proof.
  unfold hex4. repeat (constructor; [apply hexdigit_printable|]). constructor.
Qed.

Ltac printable_lit := repeat (constructor; [unfold BACKSLASH, QUOTE; lia|]); constructor.

Lemma escape_char_printable (c : Z) : Forall (fun x => 32 <= x <= 126) (escape_char c).
Proof.
  unfold escape_char.
  destruct (c =? BACKSLASH); [printable_lit|].
  destruct (c =? QUOTE); [printable_lit|].
  destruct ((32 <=? c) && (c <=? 126)) eqn:E.
  { apply andb_true_iff in E as [E1 E2]. apply Z.leb_le in E1, E2.
    constructor; [lia|constructor]. }
  destruct (c =? 8); [printable_lit|].
  destruct (c =? 12); [printable_lit|].
  destruct (c =? 10); [printable_lit|].
  destruct (c =? 13); [printable_lit|].
  destruct (c =? 9); [printable_lit|].
  destruct (c <? 65536).
  - apply Forall_app. split; [printable_lit|apply hex4_printable].
  - cbv zeta. apply Forall_app. split; [printable_lit|].
    apply Forall_app. split; [apply hex4_printable|].
    apply Forall_app. split; [printable_lit|apply hex4_printable].
Qed.

Lemma encode_chars_printable (s : pystr) :
  Forall (fun c => 32 <= c <= 126) (encode_basestring_ascii s).
Proof.
  unfold encode_basestring_ascii.
  apply Forall_app. split; [printable_lit|].
  apply Forall_app. split; [|printable_lit].
  induction s as [|c s IH]; simpl; [constructor|].
  apply Forall_app. split; [apply escape_char_printable|exact IH].
Qed.

(** X14: [encode_basestring_ascii] only produces printable ASCII characters
    and its output starts and ends with a double quote. *)
Theorem encode_basestring_ascii_printable (s : pystr) :
  Forall (fun c => 32 <= c <= 126) (encode_basestring_ascii s)
  /\ head (encode_basestring_ascii s) = Some QUOTE
  /\ last (encode_basestring_ascii s) = Some QUOTE.
Proof.
  split; [apply encode_chars_printable|]. split; [reflexivity|].
  unfold encode_basestring_ascii. rewrite app_assoc. apply last_snoc.
Qed.

Lemma join_with_Forall (P : Z -> Prop) (sep : pystr) (xs : list pystr) :
  Forall P sep -> Forall (Forall P) xs -> Forall P (join_with sep xs).
Proof.
  intros Hs. induction 1 as [|x xs Hx F IH]; [constructor|].
  destruct xs as [|y ys]; [exact Hx|].
  change (join_with sep (x :: y :: ys)) with (x ++ sep ++ join_with sep (y :: ys)).
  apply Forall_app. split; [exact Hx|]. apply Forall_app. split; [exact Hs|exact IH].
Qed.

Lemma newline_indent_ascii (n : nat) : Forall (fun c => 0 <= c <= 127) (newline_indent n).
Proof.
  unfold newline_indent. constructor; [lia|].
  induction (2 * n)%nat as [|k IH]; simpl; constructor; [lia|exact IH].
Qed.

Lemma int_repr_ascii (z : Z) : Forall (fun c => 0 <= c <= 127) (int_repr z).
Proof.
  assert (D : forall d, Forall (fun c => 0 <= c <= 127) (uint_chars d)).
  { intros d. eapply Forall_impl; [apply uint_chars_digits|]. intros c Hc.
    unfold is_digit in Hc. apply andb_true_iff in Hc as [H1 H2].
    apply Z.leb_le in H1, H2. lia. }
  unfold int_repr. destruct (Z.to_int z) as [d|d]; [apply D|constructor; [lia|apply D]].
Qed.

Lemma encode_ascii (s : pystr) : Forall (fun c => 0 <= c <= 127) (encode_basestring_ascii s).
Proof. eapply Forall_impl; [apply encode_chars_printable|]. intros c Hc. cbv beta in Hc. lia. Qed.

Lemma str_list_ascii (fr : float -> pystr) (lvl : nat) (ms : list pystr) :
  Forall (fun c => 0 <= c <= 127) (iterencode_text fr lvl (PList (map PStr ms))).
Proof.
  destruct ms as [|m ms]; [apply (bool_decide_unpack _); vm_compute; reflexivity|].
  cbn [iterencode_text map].
  constructor; [lia|]. apply Forall_app. split; [apply newline_indent_ascii|].
  apply Forall_app. split; [|apply Forall_app; split; [apply newline_indent_ascii|]].
  - apply join_with_Forall; [constructor; [lia|apply newline_indent_ascii]|].
    constructor; [apply encode_ascii|].
    induction ms as [|m' ms IH]; simpl; constructor; [apply encode_ascii|exact IH].
  - constructor; [lia|constructor].
Qed.

(** X15: every text [to_json] returns is made only of ASCII characters
    when the float repr of the temperature is. *)
Theorem to_json_ascii (float_repr : float -> pystr) (p : EventPayload) (js : pystr) :
  Forall (fun c => 0 <= c <= 127) (float_repr (temperature p)) ->
  to_json float_repr p = inr js ->
  Forall (fun c => 0 <= c <= 127) js.
Proof.
  intros Hf Hj. unfold to_json, dumps in Hj. rewrite iterencode_spec in Hj.
  destruct (ints_fit _); [|discriminate].
  assert (Ej : js = iterencode_text float_repr 0 (to_dict p)) by congruence. subst js.
  set (items := [(u "prompt", PStr (prompt p));
                 (u "models", PList (map PStr (models p)));
                 (u "max_tokens", PInt (max_tokens p));
                 (u "temperature", PFloat (temperature p));
                 (u "request_id",
                    match request_id p with Some r => PStr r | None => PNone end)]).
  assert (E : iterencode_text float_repr 0 (to_dict p)
              = 123 :: newline_indent 1
                  ++ join_with (44 :: newline_indent 1) (map (item_enc float_repr) items)
                  ++ newline_indent 0 ++ [125]) by reflexivity.
  rewrite E. constructor; [lia|]. apply Forall_app. split; [apply newline_indent_ascii|].
  apply Forall_app. split.
  2: { apply Forall_app. split; [apply newline_indent_ascii|constructor; [lia|constructor]]. }
  apply join_with_Forall; [constructor; [lia|apply newline_indent_ascii]|].
  assert (K : forall k v, Forall (fun c => 0 <= c <= 127) (iterencode_text float_repr 1 v) ->
                Forall (fun c => 0 <= c <= 127) (item_enc float_repr (k, v))).
  { intros k v Hv. unfold item_enc. cbn [fst snd]. apply Forall_app.
    split; [apply encode_ascii|]. apply Forall_app. split; [|exact Hv].
    apply (bool_decide_unpack _). vm_compute. reflexivity. }
  unfold items. cbn [map].
  constructor; [apply K; apply encode_ascii|].
  constructor; [apply K; apply str_list_ascii|].
  constructor; [apply K; apply int_repr_ascii|].
  constructor.
  { apply K. cbn [iterencode_text]. unfold floatstr.
    destruct (PrimFloat.is_nan _); [apply (bool_decide_unpack _); vm_compute; reflexivity|].
    destruct (_ =? PrimFloat.infinity)%float;
      [apply (bool_decide_unpack _); vm_compute; reflexivity|].
    destruct (_ =? PrimFloat.neg_infinity)%float;
      [apply (bool_decide_unpack _); vm_compute; reflexivity|exact Hf]. }
  constructor; [|constructor].
  apply K. destruct (request_id p) as [r|]; cbn [iterencode_text];
    [apply encode_ascii|apply (bool_decide_unpack _); vm_compute; reflexivity].
Qed.

Lemma loads_unfold (fs : pystr -> float) (c : Z) (s : pystr) :
  c <> 65279 ->
  loads fs (c :: s)
  = match scan_once fs (S (length (c :: s))) (skip_ws (c :: s)) with
    | inr (v, r) => match skip_ws r with [] => inr v | _ => inl DecodeError end
    | inl e => inl e
    end.
Proof.
  intros H. unfold loads. destruct c as [|q|q]; try reflexivity.
  repeat (destruct q as [q|q|]; try reflexivity).
  all: exfalso; apply H; reflexivity.
Qed.

(** X16: [dumps] encodes a string with [encode_basestring_ascii], and
    [loads] gives the string back from that text, for any string
    without lone surrogates. *)
Theorem loads_dumps_str (float_repr : float -> pystr) (float_of_str : pystr -> float)
    (s : pystr) :
  valid_str s = true ->
  dumps float_repr (PStr s) = inr (encode_basestring_ascii s)
  /\ loads float_of_str (encode_basestring_ascii s) = inr (PStr s).
Proof.
  intros V. split; [reflexivity|].
  pose proof (scan_once_str (length (encode_basestring_ascii s)) float_of_str s [] V) as Hs.
  rewrite app_nil_r in Hs.
  assert (Hh : exists r, encode_basestring_ascii s = QUOTE :: r) by (eexists; reflexivity).
  destruct Hh as [r Er]. rewrite Er in Hs |- *.
  rewrite loads_unfold by (unfold QUOTE; lia).
  cbn [skip_ws]. change (is_ws QUOTE) with false. cbv iota beta.
  rewrite Hs. reflexivity.
Qed.

(** X17: an integer of at most 4300 digits is written by [dumps] as
    its decimal text, and [loads] reads that text back as the same
    integer; for an integer of more digits, [dumps] raises [ValueError]
    and so does [loads] on its decimal text. *)
Theorem loads_dumps_int (float_repr : float -> pystr) (float_of_str : pystr -> float) (z : Z) :
  ((int_str_digits z <= int_max_str_digits)%nat ->
     dumps float_repr (PInt z) = inr (int_repr z)
     /\ loads float_of_str (int_repr z) = inr (PInt z))
  /\ ((int_max_str_digits < int_str_digits z)%nat ->
       dumps float_repr (PInt z) = inl IntMaxStrDigits
       /\ loads float_of_str (int_repr z) = inl IntMaxStrDigits).
Proof.
  assert (L : loads float_of_str (int_repr z)
              = if Nat.ltb int_max_str_digits (int_str_digits z)
                then inl IntMaxStrDigits else inr (PInt z)).
  { pose proof (int_repr_head z []) as Hh. rewrite app_nil_r in Hh.
    pose proof (match_number_int float_of_str z [] I) as Hm. rewrite app_nil_r in Hm.
    destruct (int_repr z) as [|c r] eqn:Ez; [contradiction|].
    assert (Hw : is_ws c = false) by exact (number_head_nonws (c :: r) Hh).
    rewrite loads_unfold.
    2: { intros ->. destruct Hh as [Hd|[Hd _]]; [discriminate|discriminate]. }
    cbn [skip_ws]. rewrite Hw. rewrite scan_once_number by exact Hh. rewrite Hm.
    destruct (Nat.ltb _ _); reflexivity. }
  unfold dumps. cbn [iterencode]. unfold long_to_decimal_string. rewrite L. split.
  - intros Hz. apply Nat.ltb_ge in Hz. rewrite Hz. split; reflexivity.
  - intros Hz. apply Nat.ltb_lt in Hz. rewrite Hz. split; reflexivity.
Qed.

(** X18: [from_json] raises [JSONDecodeError] on input made only of
    whitespace and on input starting with a byte order mark. *)
Theorem from_json_decode_error (float_of_str : pystr -> float) (s : pystr) :
  Forall (fun c => is_ws c = true) s \/ (exists r, s = 65279 :: r) ->
  from_json float_of_str s = inl JSONDecodeError.
Proof.
  intros [Hw|[r ->]]; [|reflexivity].
  unfold from_json. destruct s as [|c s']; [reflexivity|].
  assert (E : skip_ws (c :: s') = []).
  { rewrite <- (app_nil_r (c :: s')). rewrite skip_ws_ws by exact Hw. reflexivity. }
  inversion Hw as [|? ? Hc _]; subst.
  rewrite loads_unfold by (intros ->; discriminate). rewrite E. reflexivity.
Qed.

Section ClientFacts.

Variable anthropic_api_key : option pystr.
Variable post : list service_request -> service_request -> http_result.
Variable invoke_model : list service_request -> service_request -> bedrock_result.

Lemma call_anthropic_direct_trace (pr : pystr) (mt : Z) (h : list service_request) :
  snd (call_anthropic_direct anthropic_api_key post pr mt h)
  = h ++ [AnthropicPost anthropic_url anthropic_api_key (anthropic_payload pr mt)].
Proof. reflexivity. Qed.

Lemma call_bedrock_fallback_trace (pr : pystr) (mt : Z) (h : list service_request) :
  snd (call_bedrock_fallback invoke_model pr mt h)
  = h ++ [BedrockInvoke BEDROCK_MODEL_ID (bedrock_body pr mt)].
Proof. reflexivity. Qed.

Lemma call_anthropic_direct_ok (pr : pystr) (mt : Z) (h : list service_request)
    (r : ClaudeResponse) :
  fst (call_anthropic_direct anthropic_api_key post pr mt h) = inr r ->
  claude_source r = u "anthropic" /\ claude_model_used r = ANTHROPIC_MODEL
  /\ exists text usage,
       post h (AnthropicPost anthropic_url anthropic_api_key (anthropic_payload pr mt))
       = HttpResponse 200 text (BodyOk (claude_content r) usage)
       /\ claude_usage r = Some usage.
Proof.
  unfold call_anthropic_direct. cbn [fst].
  destruct (post h _) as [code text body|e] eqn:P; [|discriminate].
  destruct (code =? 200) eqn:C.
  - apply Z.eqb_eq in C. subst code.
    destruct body as [ct us|[] e]; try discriminate.
    intros [= <-]. cbn. split; [reflexivity|]. split; [reflexivity|].
    exists text, us. split; [try exact P; reflexivity|reflexivity].
  - destruct (code =? 429); discriminate.
Qed.

Lemma call_bedrock_fallback_ok (pr : pystr) (mt : Z) (h : list service_request)
    (r : ClaudeResponse) :
  fst (call_bedrock_fallback invoke_model pr mt h) = inr r ->
  claude_source r = u "bedrock" /\ claude_model_used r = BEDROCK_MODEL_ID
  /\ exists usage,
       invoke_model h (BedrockInvoke BEDROCK_MODEL_ID (bedrock_body pr mt))
       = BedrockOk (claude_content r) usage
       /\ claude_usage r = Some usage.
Proof.
  unfold call_bedrock_fallback. cbn [fst].
  destruct (invoke_model h _) as [ct us|e] eqn:I; [|discriminate].
  intros [= <-]. cbn. split; [reflexivity|]. split; [reflexivity|].
  exists us. split; [try exact I; reflexivity|reflexivity].
Qed.

End ClientFacts.

(** X19: [generate_response] posts to the Anthropic API first and invokes
    the Bedrock model once afterwards only if the Anthropic call failed. *)
Theorem generate_response_requests (anthropic_api_key : option pystr)
    (post : list service_request -> service_request -> http_result)
    (invoke_model : list service_request -> service_request -> bedrock_result)
    (pr : pystr) (mt : Z) (h : list service_request) :
  snd (generate_response anthropic_api_key post invoke_model pr mt h)
  = h ++ AnthropicPost anthropic_url anthropic_api_key (anthropic_payload pr mt)
       :: match fst (call_anthropic_direct anthropic_api_key post pr mt h) with
          | inl _ => [BedrockInvoke BEDROCK_MODEL_ID (bedrock_body pr mt)]
          | inr _ => []
          end.
Proof.
  unfold generate_response.
  pose proof (call_anthropic_direct_trace anthropic_api_key post pr mt h) as T1.
  destruct (call_anthropic_direct anthropic_api_key post pr mt h) as [[e1|r1] h1].
  - cbn [snd] in T1. subst h1.
    pose proof (call_bedrock_fallback_trace invoke_model pr mt
                  (h ++ [AnthropicPost anthropic_url anthropic_api_key (anthropic_payload pr mt)]))
      as T2.
    destruct (call_bedrock_fallback invoke_model pr mt _) as [[e2|r2] h2];
      cbn [snd fst] in T2 |- *; subst h2; rewrite <- app_assoc; reflexivity.
  - cbn [snd fst] in T1 |- *. exact T1.
Qed.

(** X20: A response of [generate_response] is either the Anthropic one, from
    a status 200 reply whose content and usage it carries, or the Bedrock
    one, after the Anthropic call failed, with Bedrock's content and usage. *)
Theorem generate_response_success (anthropic_api_key : option pystr)
    (post : list service_request -> service_request -> http_result)
    (invoke_model : list service_request -> service_request -> bedrock_result)
    (pr : pystr) (mt : Z) (h : list service_request) (r : ClaudeResponse) :
  fst (generate_response anthropic_api_key post invoke_model pr mt h) = inr r ->
  (claude_source r = u "anthropic" /\ claude_model_used r = ANTHROPIC_MODEL
   /\ exists text usage,
        post h (AnthropicPost anthropic_url anthropic_api_key (anthropic_payload pr mt))
        = HttpResponse 200 text (BodyOk (claude_content r) usage)
        /\ claude_usage r = Some usage)
  \/ (claude_source r = u "bedrock" /\ claude_model_used r = BEDROCK_MODEL_ID
      /\ (exists anthropic_error,
            fst (call_anthropic_direct anthropic_api_key post pr mt h) = inl anthropic_error)
      /\ exists usage,
           invoke_model
             (h ++ [AnthropicPost anthropic_url anthropic_api_key (anthropic_payload pr mt)])
             (BedrockInvoke BEDROCK_MODEL_ID (bedrock_body pr mt))
           = BedrockOk (claude_content r) usage
           /\ claude_usage r = Some usage).
Proof.
  unfold generate_response.
  pose proof (call_anthropic_direct_trace anthropic_api_key post pr mt h) as T1.
  pose proof (call_anthropic_direct_ok anthropic_api_key post pr mt h) as OK1.
  destruct (call_anthropic_direct anthropic_api_key post pr mt h) as [[e1|r1] h1].
  - cbn [snd fst] in T1, OK1. subst h1.
    pose proof (call_bedrock_fallback_ok invoke_model pr mt
                  (h ++ [AnthropicPost anthropic_url anthropic_api_key (anthropic_payload pr mt)]))
      as OK2.
    destruct (call_bedrock_fallback invoke_model pr mt _) as [[e2|r2] h2];
      cbn [fst] in OK2 |- *; [discriminate|].
    intros [= <-]. right. destruct (OK2 r2 eq_refl) as (A & B & C).
    split; [exact A|]. split; [exact B|]. split; [exists e1; reflexivity|exact C].
  - cbn [fst] in OK1 |- *. intros [= <-]. left. apply OK1. reflexivity.
Qed.

(** X21: [generate_response] fails exactly when both calls fail, with the
    message ["Both services failed. Anthropic: ... . Bedrock: ..."] built
    from both errors. *)
Theorem generate_response_failure (anthropic_api_key : option pystr)
    (post : list service_request -> service_request -> http_result)
    (invoke_model : list service_request -> service_request -> bedrock_result)
    (pr : pystr) (mt : Z) (h : list service_request) (msg : pystr) :
  fst (generate_response anthropic_api_key post invoke_model pr mt h) = inl msg
  <-> exists anthropic_error bedrock_error,
        fst (call_anthropic_direct anthropic_api_key post pr mt h) = inl anthropic_error
        /\ invoke_model
             (h ++ [AnthropicPost anthropic_url anthropic_api_key (anthropic_payload pr mt)])
             (BedrockInvoke BEDROCK_MODEL_ID (bedrock_body pr mt))
           = BedrockRaised bedrock_error
        /\ msg = u "Both services failed. Anthropic: " ++ anthropic_error
                   ++ u ". Bedrock: " ++ u "Bedrock fallback failed: " ++ bedrock_error.
Proof.
  unfold generate_response.
  pose proof (call_anthropic_direct_trace anthropic_api_key post pr mt h) as T1.
  destruct (call_anthropic_direct anthropic_api_key post pr mt h) as [[e1|r1] h1].
  - cbn [snd fst] in T1 |- *. subst h1. unfold call_bedrock_fallback. cbv zeta.
    destruct (invoke_model _ _) as [ct us|e2] eqn:I; cbn [fst].
    + split; [discriminate|]. intros (a & b & _ & Hb & _). discriminate.
    + split.
      * intros [= <-]. exists e1, e2. split; [reflexivity|]. split; [reflexivity|reflexivity].
      * intros (a & b & [= <-] & [= <-] & ->). reflexivity.
  - cbn [fst]. split; [discriminate|]. intros (a & b & Ha & _). discriminate.
Qed.

(* ------------------------------------------------------------------ *)
(** ** Sample runs *)

(** Witness of C1: ["gpt-4o"] fails, ["gpt-4o-mini"] answers. *)
Lemma process_kth_success_witness :
  models (demo_payload [u "gpt-4o"; u "gpt-4o-mini"]) = [u "gpt-4o"] ++ u "gpt-4o-mini" :: []
  /\ calls_for (demo_payload [u "gpt-4o"; u "gpt-4o-mini"]) [u "gpt-4o"]
     = Some [demo_call (u "gpt-4o")]
  /\ Forall (fun r => is_raised r = true) (replies demo_adapter [] [demo_call (u "gpt-4o")])
  /\ call_for (demo_payload [u "gpt-4o"; u "gpt-4o-mini"]) (u "gpt-4o-mini")
     = Some (demo_call (u "gpt-4o-mini"))
  /\ demo_adapter ([] ++ [demo_call (u "gpt-4o")]) (demo_call (u "gpt-4o-mini"))
     = Completed (Some (u "OK")) demo_usage None
  /\ exists atts,
       process demo_adapter (demo_payload [u "gpt-4o"; u "gpt-4o-mini"]) []
       = (inr (mkSimpleResponse true (Some (u "OK")) (Some (u "gpt-4o-mini")) None
                 (Some demo_usage) None (Some atts)),
          [] ++ [demo_call (u "gpt-4o")] ++ [demo_call (u "gpt-4o-mini")])
       /\ length atts = 2%nat.
Proof.
  assert (H1 : models (demo_payload [u "gpt-4o"; u "gpt-4o-mini"])
               = [u "gpt-4o"] ++ u "gpt-4o-mini" :: []) by reflexivity.
  assert (H2 : calls_for (demo_payload [u "gpt-4o"; u "gpt-4o-mini"]) [u "gpt-4o"]
               = Some [demo_call (u "gpt-4o")]) by reflexivity.
  assert (H3 : Forall (fun r => is_raised r = true)
                 (replies demo_adapter [] [demo_call (u "gpt-4o")]))
    by (vm_compute; repeat constructor).
  assert (H4 : call_for (demo_payload [u "gpt-4o"; u "gpt-4o-mini"]) (u "gpt-4o-mini")
               = Some (demo_call (u "gpt-4o-mini"))) by reflexivity.
  assert (H5 : demo_adapter ([] ++ [demo_call (u "gpt-4o")]) (demo_call (u "gpt-4o-mini"))
               = Completed (Some (u "OK")) demo_usage None) by reflexivity.
  split; [exact H1|]. split; [exact H2|]. split; [exact H3|].
  split; [exact H4|]. split; [exact H5|].
  destruct (process_kth_success demo_adapter _ [] [u "gpt-4o"] [] (u "gpt-4o-mini") _ _ _ _ _
              H1 H2 H3 H4 H5) as (atts & E & _ & L & _).
  exists atts. split; [exact E|exact L].
Defined.

(** C2: an unknown key at the front raises, and the next model is never
    called. *)
Lemma process_unknown_key_counterexample :
  process demo_adapter (demo_payload [u "no-such-model"; u "gpt-4o-mini"]) []
  = (inl (ValueError_unknown (u "no-such-model")), []).
Proof. vm_compute. reflexivity. Qed.

(** Witness of the amended C2: ["gpt-4o"] fails, then an unknown key. *)
Lemma process_unknown_key_raises_witness :
  models (demo_payload [u "gpt-4o"; u "no-such-model"; u "gpt-4o-mini"])
    = [u "gpt-4o"] ++ u "no-such-model" :: [u "gpt-4o-mini"]
  /\ calls_for (demo_payload [u "gpt-4o"; u "no-such-model"; u "gpt-4o-mini"]) [u "gpt-4o"]
     = Some [demo_call (u "gpt-4o")]
  /\ Forall (fun r => is_raised r = true) (replies demo_adapter [] [demo_call (u "gpt-4o")])
  /\ AVAILABLE_MODELS !! u "no-such-model" = None
  /\ process demo_adapter (demo_payload [u "gpt-4o"; u "no-such-model"; u "gpt-4o-mini"]) []
     = (inl (ValueError_unknown (u "no-such-model")), [] ++ [demo_call (u "gpt-4o")]).
Proof.
  assert (H1 : models (demo_payload [u "gpt-4o"; u "no-such-model"; u "gpt-4o-mini"])
               = [u "gpt-4o"] ++ u "no-such-model" :: [u "gpt-4o-mini"]) by reflexivity.
  assert (H2 : calls_for (demo_payload [u "gpt-4o"; u "no-such-model"; u "gpt-4o-mini"])
                 [u "gpt-4o"] = Some [demo_call (u "gpt-4o")]) by reflexivity.
  assert (H3 : Forall (fun r => is_raised r = true)
                 (replies demo_adapter [] [demo_call (u "gpt-4o")]))
    by (vm_compute; repeat constructor).
  assert (H4 : AVAILABLE_MODELS !! u "no-such-model" = None) by reflexivity.
  split; [exact H1|]. split; [exact H2|]. split; [exact H3|]. split; [exact H4|].
  exact (process_unknown_key_raises demo_adapter _ [] _ _ _ _ H1 H2 H3 H4).
Defined.

(** C3: an exception leaves [process] for a list with an unknown key
    after a failing model. *)
Lemma process_exception_counterexample :
  fst (process demo_adapter (demo_payload [u "gpt-4o"; u "my-model"]) [])
  = inl (ValueError_unknown (u "my-model")).
Proof. vm_compute. reflexivity. Qed.

(** Witness of C4: the single model fails. *)
Lemma process_all_fail_witness :
  calls_for (demo_payload [u "gpt-4o"]) (models (demo_payload [u "gpt-4o"]))
    = Some [demo_call (u "gpt-4o")]
  /\ Forall (fun r => is_raised r = true) (replies demo_adapter [] [demo_call (u "gpt-4o")])
  /\ exists atts,
       process demo_adapter (demo_payload [u "gpt-4o"]) []
       = (inr (mkSimpleResponse false None None None None
                 (Some (u "All 1 models failed")) (Some atts)),
          [] ++ [demo_call (u "gpt-4o")])
       /\ length atts = 1%nat.
Proof.
  assert (H1 : calls_for (demo_payload [u "gpt-4o"]) (models (demo_payload [u "gpt-4o"]))
               = Some [demo_call (u "gpt-4o")]) by reflexivity.
  assert (H2 : Forall (fun r => is_raised r = true)
                 (replies demo_adapter [] [demo_call (u "gpt-4o")]))
    by (vm_compute; repeat constructor).
  split; [exact H1|]. split; [exact H2|].
  destruct (process_all_fail demo_adapter (demo_payload [u "gpt-4o"]) [] _ H1 H2)
    as (atts & E & L & _).
  exists atts. split; [exact E|exact L].
Defined.

(** C5: the record of the failed ["gpt-4o"] call does not hold the
    adapter's message ["rate limited"] itself. *)
Lemma failed_attempt_error_counterexample :
  exists r a,
    fst (process demo_adapter (demo_payload [u "gpt-4o"]) []) = inr r
    /\ attempts r = Some [a]
    /\ att_error a = u "GPT-4o failed: rate limited"
    /\ att_error a <> u "rate limited".
Proof.
  do 2 eexists. split; [vm_compute; reflexivity|].
  split; [reflexivity|]. split; [reflexivity|]. vm_compute. discriminate.
Qed.

(** Witness of the amended C5: the second model fails after the first. *)
Lemma process_failed_attempt_error_witness :
  exists atts,
    attempts (mkSimpleResponse false None None None None
                (Some (u "All 2 models failed"))
                (Some [failed_attempt (u "gpt-4o") (u "rate limited");
                       failed_attempt (u "gpt-4o") (u "rate limited")])) = Some atts
    /\ atts !! length [u "gpt-4o"]
       = Some (mkAttempt (u "gpt-4o") (get_model_name (u "gpt-4o")) (u "failed")
                 (get_model_name (u "gpt-4o") ++ u " failed: " ++ u "rate limited")).
Proof.
  apply (process_failed_attempt_error demo_adapter (demo_payload [u "gpt-4o"; u "gpt-4o"]) []
           [u "gpt-4o"] [] (u "gpt-4o") [demo_call (u "gpt-4o")] (demo_call (u "gpt-4o"))).
  - reflexivity.
  - reflexivity.
  - vm_compute. repeat constructor.
  - reflexivity.
  - reflexivity.
  - vm_compute. reflexivity.
Defined.

(** Witness of C8. *)
Lemma primary_fallback_split_witness :
  primary_model (demo_payload [u "gpt-4o"; u "gpt-4o-mini"]) = Some (u "gpt-4o")
  /\ fallback_models (demo_payload [u "gpt-4o"; u "gpt-4o-mini"]) = [u "gpt-4o-mini"]
  /\ ([u "gpt-4o-mini"] = [] -> fallback_models (demo_payload [u "gpt-4o"; u "gpt-4o-mini"]) = []).
Proof. apply primary_fallback_split. reflexivity. Defined.

(** C7: a prompt made of a lone high surrogate and a lone low surrogate
    (the two-character Python string '\ud800\udc00') comes back as
    the single code point U+10000; and a request whose [max_tokens] is
    [10 ** 4300] (4301 digits) makes [to_json] raise [ValueError]. *)
Lemma json_roundtrip_counterexample :
  let p := mkEventPayload [55296; 56320] [u "gpt-4o"] 4000 0.7%float None in
  let q := mkEventPayload (u "X") [u "gpt-4o"] (10 ^ 4300) 0.7%float None in
  (0 < max_tokens p /\ models p <> []
   /\ exists s, to_json demo_float_repr p = inr s
        /\ from_json demo_float_of_str s
           = inr (mkEventPayload [65536] [u "gpt-4o"] 4000 0.7%float None)
        /\ from_json demo_float_of_str s <> inr p)
  /\ (0 < max_tokens q /\ models q <> [] /\ to_json demo_float_repr q = inl IntMaxStrDigits).
Proof.
  intros p q. split.
  - set (s := match to_json demo_float_repr p with inr s => s | inl _ => [] end).
    assert (E : from_json demo_float_of_str s
                = inr (mkEventPayload [65536] [u "gpt-4o"] 4000 0.7%float None))
      by (vm_compute; reflexivity).
    split; [simpl; lia|]. split; [discriminate|].
    exists s. split; [vm_compute; reflexivity|]. split; [exact E|].
    rewrite E. intros H. injection H. discriminate.
  - split; [apply Z.pow_pos_nonneg; lia|]. split; [discriminate|].
    vm_compute. reflexivity.
Qed.

(** Witness of the amended C7: a prompt with a non-ASCII and an astral
    character, two models and a request id. *)
Lemma to_json_from_json_roundtrip_witness :
  (exists s,
     to_json demo_float_repr
       (mkEventPayload [72; 105; 233; 128512] [u "gpt-4o"; u "gpt-4o-mini"] 4000 0.7%float
          (Some (u "req-1"))) = inr s
     /\ from_json demo_float_of_str s
        = inr (mkEventPayload [72; 105; 233; 128512] [u "gpt-4o"; u "gpt-4o-mini"] 4000
                 0.7%float (Some (u "req-1"))))
  /\ to_json demo_float_repr (mkEventPayload (u "X") [u "gpt-4o"] (10 ^ 4300) 0.7%float None)
     = inl IntMaxStrDigits.
Proof.
  assert (FL : float_literal (demo_float_repr 0.7%float)).
  { exists [], [48], [46; 55], []. repeat split.
    - left. reflexivity.
    - left. reflexivity.
    - right. exists [55]. repeat split; [discriminate|repeat constructor].
    - left. reflexivity.
    - left. discriminate. }
  split.
  - apply (proj1 (to_json_from_json_roundtrip demo_float_repr demo_float_of_str
                    (mkEventPayload [72; 105; 233; 128512] [u "gpt-4o"; u "gpt-4o-mini"] 4000
                       0.7%float (Some (u "req-1")))
                    eq_refl eq_refl eq_refl eq_refl FL eq_refl)).
    apply Nat.leb_le. vm_compute. reflexivity.
  - apply (proj2 (to_json_from_json_roundtrip demo_float_repr demo_float_of_str
                    (mkEventPayload (u "X") [u "gpt-4o"] (10 ^ 4300) 0.7%float None)
                    eq_refl eq_refl eq_refl eq_refl FL eq_refl)).
    apply Nat.ltb_lt. vm_compute. reflexivity.
Defined.

(** Witness of X2. *)
Lemma get_example_payload_result_witness :
  prompt (mkEventPayload (u "Hi") [u "gpt-4o"; u "gpt-4o-mini"; u "gpt-4-turbo"] 4000 0.7%float None) = u "Hi"
  /\ request_id (mkEventPayload (u "Hi") [u "gpt-4o"; u "gpt-4o-mini"; u "gpt-4-turbo"] 4000 0.7%float None) = None
  /\ max_tokens (mkEventPayload (u "Hi") [u "gpt-4o"; u "gpt-4o-mini"; u "gpt-4-turbo"] 4000 0.7%float None) = 4000
  /\ temperature (mkEventPayload (u "Hi") [u "gpt-4o"; u "gpt-4o-mini"; u "gpt-4-turbo"] 4000 0.7%float None) = 0.7%float
  /\ models (mkEventPayload (u "Hi") [u "gpt-4o"; u "gpt-4o-mini"; u "gpt-4-turbo"] 4000 0.7%float None) <> []
  /\ Forall (fun k => is_Some (AVAILABLE_MODELS !! k))
       (models (mkEventPayload (u "Hi") [u "gpt-4o"; u "gpt-4o-mini"; u "gpt-4-turbo"] 4000 0.7%float None))
  /\ exists example, lookup_item (u "openai_only") EXAMPLE_PAYLOADS = Some example
       /\ models (mkEventPayload (u "Hi") [u "gpt-4o"; u "gpt-4o-mini"; u "gpt-4-turbo"] 4000 0.7%float None)
          = models example.
Proof. apply (get_example_payload_result (u "openai_only") (u "Hi")). vm_compute. reflexivity. Defined.

(** Witness of X3. *)
Lemma process_example_payload_returns_witness :
  exists response,
    fst (process demo_adapter
           (mkEventPayload main_prompt [u "gpt-4o-mini"; u "claude-3-haiku";
                                        u "claude-3-haiku-bedrock"; u "gpt-4o"] 4000 0.7%float None)
           []) = inr response.
Proof.
  apply (process_example_payload_returns demo_adapter (u "cost_first") main_prompt).
  vm_compute. reflexivity.
Defined.

(** Witness of X5. *)
Lemma create_payload_keeps_witness :
  create_payload (u "X") [u "gpt-4o"] [(u "max_tokens", PInt 100)]
  = inr (mkEventPayload (u "X") [u "gpt-4o"] 100 0.7%float None)
  /\ prompt (mkEventPayload (u "X") [u "gpt-4o"] 100 0.7%float None) = u "X"
  /\ models (mkEventPayload (u "X") [u "gpt-4o"] 100 0.7%float None) = [u "gpt-4o"].
Proof.
  split; [vm_compute; reflexivity|].
  apply (create_payload_keeps (u "X") [u "gpt-4o"] [(u "max_tokens", PInt 100)]).
  vm_compute. reflexivity.
Defined.

(** Witness of X6. *)
Lemma create_payload_type_error_witness :
  create_payload (u "X") [u "gpt-4o"] [(u "max_tokens", PInt 100); (u "stream", PBool true)]
  = inl TypeError.
Proof.
  apply (create_payload_type_error (u "X") [u "gpt-4o"]
           [(u "max_tokens", PInt 100); (u "stream", PBool true)] (u "stream") (PBool true)).
  - apply list_elem_of_In. simpl. auto.
  - right. right. apply (bool_decide_unpack _). vm_compute. reflexivity.
Defined.

(** Witness of X7. *)
Lemma from_dict_type_error_witness :
  from_dict (PDict [(u "prompt", PStr (u "X"))]) = inl TypeError.
Proof.
  apply (from_dict_type_error (PDict [(u "prompt", PStr (u "X"))])).
  right. left. vm_compute. reflexivity.
Defined.

(** Witness of X11. *)
Lemma process_no_models_witness :
  process demo_adapter (demo_payload []) [demo_call (u "gpt-4o")]
  = (inr (mkSimpleResponse false None None None None (Some (u "All 0 models failed"))
            (Some [])), [demo_call (u "gpt-4o")]).
Proof. apply (process_no_models demo_adapter (demo_payload [])). reflexivity. Defined.

(** Witness of X12. *)
Lemma process_response_shape_witness :
  exists r,
    fst (process demo_adapter (demo_payload [u "gpt-4o"; u "gpt-4o-mini"]) []) = inr r
    /\ (success r = true ->
          exists k, model_used r = Some k /\ k ∈ models (demo_payload [u "gpt-4o"; u "gpt-4o-mini"])
            /\ is_Some (AVAILABLE_MODELS !! k)
            /\ is_Some (usage r) /\ error r = None
            /\ exists atts, attempts r = Some atts
                            /\ last atts = Some (mkAttempt k (get_model_name k) (u "success") []))
    /\ (success r = false ->
          content r = None /\ model_used r = None /\ cost r = None /\ usage r = None
          /\ error r = Some (u "All " ++ int_repr (Z.of_nat (length (models (demo_payload [u "gpt-4o"; u "gpt-4o-mini"]))))
                              ++ u " models failed")).
Proof.
  exists (match fst (process demo_adapter (demo_payload [u "gpt-4o"; u "gpt-4o-mini"]) []) with
          | inr r => r
          | inl _ => mkSimpleResponse false None None None None None None
          end).
  split; [vm_compute; reflexivity|].
  apply (process_response_shape demo_adapter (demo_payload [u "gpt-4o"; u "gpt-4o-mini"]) []).
  vm_compute. reflexivity.
Defined.

(** Witness of X15. *)
Lemma to_json_ascii_witness :
  exists js,
    to_json demo_float_repr (mkEventPayload [72; 233; 128512] [u "gpt-4o"] 4000 0.7%float None)
    = inr js
    /\ Forall (fun c => 0 <= c <= 127) js.
Proof.
  exists (match to_json demo_float_repr
                  (mkEventPayload [72; 233; 128512] [u "gpt-4o"] 4000 0.7%float None) with
          | inr js => js | inl _ => [] end).
  split; [vm_compute; reflexivity|].
  apply (to_json_ascii demo_float_repr (mkEventPayload [72; 233; 128512] [u "gpt-4o"] 4000 0.7%float None)).
  - vm_compute. repeat constructor; discriminate.
  - vm_compute. reflexivity.
Defined.

(** Witness of X16. *)
Lemma loads_dumps_str_witness :
  dumps demo_float_repr (PStr [72; 233; 128512]) = inr (encode_basestring_ascii [72; 233; 128512])
  /\ loads demo_float_of_str (encode_basestring_ascii [72; 233; 128512])
     = inr (PStr [72; 233; 128512]).
Proof. apply (loads_dumps_str demo_float_repr demo_float_of_str [72; 233; 128512]). reflexivity. Defined.

(** Witness of X18. *)
Lemma from_json_decode_error_witness :
  from_json demo_float_of_str [32; 10; 9] = inl JSONDecodeError.
Proof.
  apply (from_json_decode_error demo_float_of_str [32; 10; 9]).
  left. repeat constructor.
Defined.

(** Witness of X20. *)
Lemma generate_response_success_witness :
  exists r,
    fst (generate_response (Some (u "k"))
           (fun _ _ => HttpResponse 429 (u "slow down") (BodyOk [] PNone))
           (fun _ _ => BedrockOk (u "Hi") (PDict [])) (u "Hello") 100 []) = inr r
    /\ ((claude_source r = u "anthropic" /\ claude_model_used r = ANTHROPIC_MODEL
         /\ exists text usage,
              HttpResponse 429 (u "slow down") (BodyOk [] PNone)
              = HttpResponse 200 text (BodyOk (claude_content r) usage)
              /\ claude_usage r = Some usage)
        \/ (claude_source r = u "bedrock" /\ claude_model_used r = BEDROCK_MODEL_ID
            /\ (exists anthropic_error,
                  fst (call_anthropic_direct (Some (u "k"))
                         (fun _ _ => HttpResponse 429 (u "slow down") (BodyOk [] PNone))
                         (u "Hello") 100 []) = inl anthropic_error)
            /\ exists usage,
                 BedrockOk (u "Hi") (PDict []) = BedrockOk (claude_content r) usage
                 /\ claude_usage r = Some usage)).
Proof.
  exists (match fst (generate_response (Some (u "k"))
                      (fun _ _ => HttpResponse 429 (u "slow down") (BodyOk [] PNone))
                      (fun _ _ => BedrockOk (u "Hi") (PDict [])) (u "Hello") 100 []) with
          | inr r => r
          | inl _ => mkClaudeResponse [] [] [] None
          end).
  split; [vm_compute; reflexivity|].
  apply (generate_response_success (Some (u "k"))
           (fun _ _ => HttpResponse 429 (u "slow down") (BodyOk [] PNone))
           (fun _ _ => BedrockOk (u "Hi") (PDict [])) (u "Hello") 100 []).
  vm_compute. reflexivity.
Defined.
